(** * Secret Santa: the constrained draw of [secret_santa.py]

    A shallow embedding of [load_participants], [filter_valid_pairs] and
    [secret_santa_draw], and the properties of the draw; then of
    [save_results_to_excel], [send_emails] and [main], which save and mail
    what was drawn.

    Data.  The participants are the rows of a pandas DataFrame read from a
    workbook; the index is the default [RangeIndex], so the label that
    [iterrows] yields for a row is its position, which is what [iloc] takes.
    The cells the draw reads are the columns NOM, Prénom and Catégorie; the
    names are Python strings, the category is a string or missing.  On strings
    [!=] is the negation of structural equality.  A missing category reaches
    line 36 either as [None], which is equal to itself, or as a float NaN,
    which differs from every value, itself included: [filter_valid_pairs] and
    [secret_santa_draw] are the code on a frame whose missing categories read
    [None], [filter_valid_pairs_as] and [secret_santa_draw_as] the same code
    under either reading, and the two agree on a frame where no category is
    missing.  Which reading a loaded workbook gets depends on its columns and
    on the version of pandas, which the repository does not fix
    ([missing_category]).

    Effects.  [random.shuffle] draws from the process-wide generator: the
    generator is an explicit state, threaded through the draw.  [raise] is a
    constructor of the result.  The objects a call of the draw creates and
    mutates live in an explicit heap ([secret_santa_draw_in]).  The clock, the
    files written, the standard output and the calls on the mail server are
    fields of an explicit world, which also says whether a workbook can be
    read, whether a file can be written and how many calls the mail server
    lets through. *)

From Stdlib Require Import String List Arith Bool Permutation Lia.
Import ListNotations.
Open Scope string_scope.
Open Scope list_scope.

(** ** Exceptions *)

Inductive exn : Type :=
| Exception (msg : string)
| IndexError.

Inductive result (A : Type) : Type :=
| Return (a : A)
| Raise (e : exn).

Arguments Return {A} a.
Arguments Raise {A} e.

Definition bind {A B : Type} (c : result A) (k : A -> result B) : result B :=
  match c with
  | Return a => k a
  | Raise e => Raise e
  end.

Notation "'do' x <- c ;; k" := (bind c (fun x => k))
  (at level 10, x name, c at level 100, k at level 200).

(** ** The DataFrame *)

Record Participant : Type := mkParticipant {
  NOM : string;
  Prenom : string;
  Email : string;
  Categorie : option string
}.

Definition DataFrame : Type := list Participant.

(** What [pd.read_excel] hands to [load_participants]: rows of the string
    columns NOM, Prénom and Email, with or without a column 'Catégorie', whose
    cells may be blank. *)
Inductive Workbook : Type :=
| WithCategorie (rows : list (string * string * string * option string))
| WithoutCategorie (rows : list (string * string * string)).

(** [load_participants], lines 17-21: a missing column 'Catégorie' is created
    and filled with [None].  In the frame [Categorie = None] is a cell without
    a category: the [None] of line 19, or the blank cell of a column that
    exists, which pandas holds as NaN. *)
Definition load_participants (df : Workbook) : DataFrame :=
  match df with
  | WithoutCategorie rows =>
      map (fun '(nom, prenom, email) => mkParticipant nom prenom email None) rows
  | WithCategorie rows =>
      map (fun '(nom, prenom, email, cat) => mkParticipant nom prenom email cat) rows
  end.

(** The pandas the script runs on: the repository pins no version. *)
Inductive pandas : Type :=
| Pandas2
| Pandas3.

(** What line 36 sees in a cell without a category. *)
Inductive missing : Type :=
| ReadsNone
| ReadsNaN.

(** A blank cell is NaN under both versions.  The [None] of line 19 is handed
    on by [iterrows] as it is under pandas 2, whose row is a Series of
    objects; under pandas 3 the row, strings but for that [None], is a Series
    of strings, where a missing value is NaN. *)
Definition missing_category (version : pandas) (df : Workbook) : missing :=
  match df, version with
  | WithoutCategorie _, Pandas2 => ReadsNone
  | WithoutCategorie _, Pandas3 => ReadsNaN
  | WithCategorie _, _ => ReadsNaN
  end.

(** [participants.iterrows()]: the rows with their index labels. *)
Definition iterrows (participants : DataFrame) : list (nat * Participant) :=
  combine (seq 0 (length participants)) participants.

(** [participants.iloc[i]]. *)
Definition iloc (participants : DataFrame) (i : nat) : result Participant :=
  match nth_error participants i with
  | Some row => Return row
  | None => Raise IndexError
  end.

(** ** Python's [!=] on the cells *)

Definition str_ne (a b : string) : bool := negb (String.eqb a b).

Definition cat_eqb (a b : option string) : bool :=
  match a, b with
  | None, None => true
  | Some x, Some y => String.eqb x y
  | _, _ => false
  end.

Definition cat_ne (a b : option string) : bool := negb (cat_eqb a b).

(** The identity of a participant: (last name, first name). *)
Definition identity (p : Participant) : string * string := (NOM p, Prenom p).

(** ** [filter_valid_pairs] *)

(** The condition of line 36. *)
Definition valid_pair (giver receiver : Participant) : bool :=
  (str_ne (NOM giver) (NOM receiver) || str_ne (Prenom giver) (Prenom receiver))
  && cat_ne (Categorie giver) (Categorie receiver).

(** Lines 32-39: the two nested loops over [iterrows], appending [(i, j)]. *)
Definition filter_valid_pairs (participants : DataFrame) : list (nat * nat) :=
  flat_map (fun '(i, giver) =>
    flat_map (fun '(j, receiver) =>
      if valid_pair giver receiver then [(i, j)] else [])
      (iterrows participants))
    (iterrows participants).

(** ** The dict [matched]

    A Python dict keeps its items in insertion order, and line 63 reads them in
    that order: an association list, new keys at the end. *)

Definition dict : Type := list (nat * nat).

Definition keys (d : dict) : list nat := map fst d.
Definition values (d : dict) : list nat := map snd d.

(** [k in d] *)
Definition key_in (k : nat) (d : dict) : bool := existsb (Nat.eqb k) (keys d).

(** [v in d.values()] *)
Definition value_in (v : nat) (d : dict) : bool := existsb (Nat.eqb v) (values d).

(** [d[k] = v]: an existing key keeps its place and takes the new value. *)
Fixpoint dict_set (d : dict) (k v : nat) : dict :=
  match d with
  | [] => [(k, v)]
  | (k', v') :: d' =>
      if Nat.eqb k k' then (k, v) :: d' else (k', v') :: dict_set d' k v
  end.

(** ** The random source *)

(** [random.shuffle(x)] reorders [x] in place and advances the generator.  All
    the draw relies on is that the new order is a permutation of the old. *)
Class RandomSource (Rng : Type) : Type := {
  shuffle : list (nat * nat) -> Rng -> list (nat * nat) * Rng;
  shuffle_Permutation : forall l g, Permutation l (fst (shuffle l g))
}.

(** A concrete source: the generator as a tape of raw draws. *)
Definition Tape : Type := list nat.

(** [randbelow(n)]: the next raw draw, reduced below [n]; 0 once the tape is
    read through. *)
Definition randbelow (n : nat) (g : Tape) : nat * Tape :=
  match g with
  | [] => (0, [])
  | k :: g' => (k mod n, g')
  end.

Fixpoint set_nth {A : Type} (x : list A) (i : nat) (a : A) : list A :=
  match x, i with
  | [], _ => []
  | _ :: t, 0 => a :: t
  | h :: t, S i' => h :: set_nth t i' a
  end.

(** [x[i], x[j] = x[j], x[i]] *)
Definition swap {A : Type} (x : list A) (i j : nat) : list A :=
  match nth_error x i, nth_error x j with
  | Some xi, Some xj => set_nth (set_nth x i xj) j xi
  | _, _ => x
  end.

(** CPython's [shuffle]:
    [for i in reversed(range(1, len(x))): j = randbelow(i + 1);
     x[i], x[j] = x[j], x[i]]. *)
Fixpoint shuffle_from {A : Type} (i : nat) (x : list A) (g : Tape) : list A * Tape :=
  match i with
  | 0 => (x, g)
  | S i' =>
      let '(j, g) := randbelow (S i) g in
      shuffle_from i' (swap x i j) g
  end.

Definition random_shuffle {A : Type} (x : list A) (g : Tape) : list A * Tape :=
  shuffle_from (length x - 1) x g.

(** ** [secret_santa_draw] *)

(** The body of the loop, line 55-56. *)
Definition commit (matched : dict) (candidate : nat * nat) : dict :=
  let '(giver, receiver) := candidate in
  if negb (key_in giver matched) && negb (value_in receiver matched)
  then dict_set matched giver receiver
  else matched.

(** Lines 54-58: the loop over the shuffled pairs, with its [break]. *)
Fixpoint greedy_scan (n : nat) (pairs : list (nat * nat)) (matched : dict) : dict :=
  match pairs with
  | [] => matched
  | candidate :: rest =>
      let matched := commit matched candidate in
      if Nat.eqb (length matched) n then matched
      else greedy_scan n rest matched
  end.

(** The same loop without lines 57-58. *)
Definition full_scan (pairs : list (nat * nat)) (matched : dict) : dict :=
  fold_left commit pairs matched.

(** Line 63: the rows of the matched indices, in the order of [matched.items()]. *)
Fixpoint results (participants : DataFrame) (items : list (nat * nat))
  : result (list (Participant * Participant)) :=
  match items with
  | [] => Return []
  | (giver, receiver) :: rest =>
      do g <- iloc participants giver ;;
      do r <- iloc participants receiver ;;
      do tl <- results participants rest ;;
      Return ((g, r) :: tl)
  end.

Definition infeasible : string :=
  "Impossible de générer un tirage Secret Santa valide avec les contraintes actuelles.".

Section Draw.
Context {Rng : Type} {RS : RandomSource Rng}.

(** [pairs] after line 51. *)
Definition shuffled_pairs (participants : DataFrame) (rng : Rng) : list (nat * nat) :=
  fst (shuffle (filter_valid_pairs participants) rng).

(** [matched] after the loop, at line 60. *)
Definition draw_matched (participants : DataFrame) (rng : Rng) : dict :=
  greedy_scan (length participants) (shuffled_pairs participants rng) [].

Definition secret_santa_draw (participants : DataFrame) (rng : Rng)
  : result (list (Participant * Participant)) * Rng :=
  let pairs := filter_valid_pairs participants in
  let '(pairs, rng) := shuffle pairs rng in
  let matched := greedy_scan (length participants) pairs [] in
  if negb (Nat.eqb (length matched) (length participants))
  then (Raise (Exception infeasible), rng)
  else (results participants matched, rng).
End Draw.

(** ** The same code, whatever a missing category reads as *)

(** Line 36's [!=] on two 'Catégorie' cells. *)
Definition cat_ne_as (m : missing) (a b : option string) : bool :=
  match m with
  | ReadsNone => cat_ne a b
  | ReadsNaN =>
      match a, b with
      | Some x, Some y => str_ne x y
      | _, _ => true
      end
  end.

Definition valid_pair_as (m : missing) (giver receiver : Participant) : bool :=
  (str_ne (NOM giver) (NOM receiver) || str_ne (Prenom giver) (Prenom receiver))
  && cat_ne_as m (Categorie giver) (Categorie receiver).

Definition filter_valid_pairs_as (m : missing) (participants : DataFrame)
  : list (nat * nat) :=
  flat_map (fun '(i, giver) =>
    flat_map (fun '(j, receiver) =>
      if valid_pair_as m giver receiver then [(i, j)] else [])
      (iterrows participants))
    (iterrows participants).

Section DrawAs.
Context {Rng : Type} {RS : RandomSource Rng}.

(** [pairs] after line 51 and [matched] at line 60. *)
Definition shuffled_pairs_as (m : missing) (participants : DataFrame) (rng : Rng)
  : list (nat * nat) :=
  fst (shuffle (filter_valid_pairs_as m participants) rng).

Definition draw_matched_as (m : missing) (participants : DataFrame) (rng : Rng) : dict :=
  greedy_scan (length participants) (shuffled_pairs_as m participants rng) [].

Definition secret_santa_draw_as (m : missing) (participants : DataFrame) (rng : Rng)
  : result (list (Participant * Participant)) * Rng :=
  let pairs := filter_valid_pairs_as m participants in
  let '(pairs, rng) := shuffle pairs rng in
  let matched := greedy_scan (length participants) pairs [] in
  if negb (Nat.eqb (length matched) (length participants))
  then (Raise (Exception infeasible), rng)
  else (results participants matched, rng).
End DrawAs.

(** ** The objects of a call

    The caller's frame, the list [pairs] that line 51 shuffles in place and
    the dict [matched] that line 56 fills are objects of a heap; an address is
    a position in it, and nothing is freed. *)

Inductive object : Type :=
| FrameObject (rows : DataFrame)
| ListObject (items : list (nat * nat))
| DictObject (items : dict).

Definition Heap : Type := list object.

(** A new object, and its address. *)
Definition allocate (h : Heap) (o : object) : Heap * nat := (h ++ [o], length h).

(** The object at [a] is changed in place. *)
Definition assign (h : Heap) (a : nat) (o : object) : Heap := set_nth h a o.

(** Lines 54-58 on the dict at address [matched]. *)
Fixpoint scan_in (h : Heap) (matched : nat) (n : nat) (pairs : list (nat * nat)) : Heap :=
  match pairs with
  | [] => h
  | candidate :: rest =>
      match nth_error h matched with
      | Some (DictObject d) =>
          let h := assign h matched (DictObject (commit d candidate)) in
          if Nat.eqb (length (commit d candidate)) n then h
          else scan_in h matched n rest
      | _ => h
      end
  end.

Section DrawIn.
Context {Rng : Type} {RS : RandomSource Rng}.

(** [secret_santa_draw] called on the object at address [participants];
    [None] when that object is no frame. *)
Definition secret_santa_draw_in (m : missing) (h : Heap) (participants : nat) (rng : Rng)
  : option (result (list (Participant * Participant)) * Heap * Rng) :=
  match nth_error h participants with
  | Some (FrameObject rows) =>
      let '(h, pairs) := allocate h (ListObject (filter_valid_pairs_as m rows)) in
      match nth_error h pairs with
      | Some (ListObject l) =>
          let '(l, rng) := shuffle l rng in
          let h := assign h pairs (ListObject l) in
          let '(h, matched) := allocate h (DictObject []) in
          match nth_error h pairs, nth_error h participants with
          | Some (ListObject l), Some (FrameObject rows) =>
              let h := scan_in h matched (length rows) l in
              match nth_error h matched, nth_error h participants with
              | Some (DictObject d), Some (FrameObject rows) =>
                  if negb (Nat.eqb (length d) (length rows))
                  then Some (Raise (Exception infeasible), h, rng)
                  else Some (results rows d, h, rng)
              | _, _ => None
              end
          | _, _ => None
          end
      | _ => None
      end
  | _ => None
  end.
End DrawIn.

(** ** [save_results_to_excel] *)

(** What [datetime.now()] returns. *)
Record datetime : Type := mkDatetime {
  year : nat;
  month : nat;
  day : nat;
  hour : nat;
  minute : nat;
  second : nat
}.

(** The values a [datetime] of the clock can hold, years of four digits. *)
Definition valid_datetime (t : datetime) : Prop :=
  10 * 100 <= year t < 100 * 100 /\ 1 <= month t <= 12 /\ 1 <= day t <= 31 /\
  hour t < 24 /\ minute t < 60 /\ second t < 60.

Definition digit (n : nat) : string :=
  String (Ascii.ascii_of_nat (48 + n mod 10)) EmptyString.

(** [%m], [%d], [%H], [%M], [%S]: two digits, zero-padded. *)
Definition two_digits (n : nat) : string :=
  String.append (digit (n / 10)) (digit n).

(** [%Y] *)
Definition four_digits (n : nat) : string :=
  String.append (two_digits (n / 100)) (two_digits (n mod 100)).

(** [strftime("%Y%m%d_%H%M%S")] *)
Definition strftime (t : datetime) : string :=
  String.concat "" [ four_digits (year t); two_digits (month t); two_digits (day t);
                     "_";
                     two_digits (hour t); two_digits (minute t); two_digits (second t) ].

(** A worksheet as [to_excel(..., index=False)] writes it: the header, when
    the frame has columns, and the data rows. *)
Record Sheet : Type := mkSheet {
  sheet_columns : list string;
  sheet_rows : list (list string)
}.

(** Line 75: one record per result, its keys in this order. *)
Definition output_data (results : list (Participant * Participant))
  : list (list (string * string)) :=
  map (fun row => [ ("NOM Donneur", NOM (fst row));
                    ("Prénom Donneur", Prenom (fst row));
                    ("NOM Destinataire", NOM (snd row));
                    ("Prénom Destinataire", Prenom (snd row)) ]) results.

(** [pd.DataFrame(records)] for records that all carry the same keys: the
    columns are the keys of the first record, none when there is no record. *)
Definition frame_of_records (records : list (list (string * string))) : Sheet :=
  {| sheet_columns := match records with
                      | [] => []
                      | record :: _ => map fst record
                      end;
     sheet_rows := map (map snd) records |}.

(** The files of the working directory, by name. *)
Definition Disk : Type := string -> option Sheet.

(** [df.to_excel(file, index=False)]: the file is created or replaced. *)
Definition to_excel (df : Sheet) (file : string) (disk : Disk) : Disk :=
  fun name => if String.eqb name file then Some df else disk name.

(** Lines 73-78, with the clock and the disk explicit. *)
Definition save_results_to_excel (results : list (Participant * Participant))
  (clock : datetime) (disk : Disk) : string * Disk :=
  let now := strftime clock in
  let output_file := String.concat "" ["secret_santa_results_"; now; ".xlsx"] in
  let output_data := output_data results in
  let output_df := frame_of_records output_data in
  (output_file, to_excel output_df output_file disk).

(** ** [send_emails] *)

Definition LF : string := String (Ascii.ascii_of_nat 10) EmptyString.

(** The headers and the text of a [MIMEMultipart] message. *)
Record Message : Type := mkMessage {
  msg_From : string;
  msg_To : string;
  msg_Subject : string;
  msg_body : string
}.

(** The calls made on [smtplib], in order; the [with] block ends a
    connection with [quit].  Calls are taken to succeed. *)
Inductive smtp_call : Type :=
| SMTP (server : string) (port : nat)
| starttls
| login (user password : string)
| sendmail (from_addr to_addr : string) (msg : Message)
| quit.

(** Line 96. *)
Definition email_body (giver receiver : Participant) : string :=
  String.concat ""
    [ "Bonjour "; Prenom giver; ","; LF; LF;
      "Vous avez été désigné pour offrir un cadeau à ";
      Prenom receiver; " "; NOM receiver; " ! 🎄"; LF; LF;
      "Joyeux Noël !" ].

(** Lines 91-103: one message, one connection. *)
Definition send_email (smtp_server : string) (smtp_port : nat) (email password : string)
  (giver receiver : Participant) : list smtp_call :=
  let msg := {| msg_From := email;
                msg_To := Email giver;
                msg_Subject := "Votre Secret Santa 🎅";
                msg_body := email_body giver receiver |} in
  [ SMTP smtp_server smtp_port;
    starttls;
    login email password;
    sendmail email (Email giver) msg;
    quit ].

(** Line 90: the loop over the results. *)
Definition send_emails (results : list (Participant * Participant))
  (smtp_server : string) (smtp_port : nat) (email password : string) : list smtp_call :=
  flat_map (fun '(giver, receiver) =>
              send_email smtp_server smtp_port email password giver receiver) results.

(** A mail server that lets [fuel] calls through and makes the next one
    raise.  Calls that returned are recorded; the one that raised is not;
    leaving the [with] block, normally or by the exception, is recorded as
    [quit].  The second component tells whether the loop ran to its end. *)
Definition interrupted (fuel : nat) (session : list smtp_call) : list smtp_call :=
  match fuel with
  | 0 => []
  | S _ => firstn fuel session ++ [quit]
  end.

Fixpoint send_emails_until (fuel : nat) (results : list (Participant * Participant))
  (smtp_server : string) (smtp_port : nat) (email password : string)
  : list smtp_call * bool :=
  match results with
  | [] => ([], true)
  | (giver, receiver) :: rest =>
      if Nat.leb 4 fuel then
        let '(calls, sent) :=
          send_emails_until (fuel - 4) rest smtp_server smtp_port email password in
        (send_email smtp_server smtp_port email password giver receiver ++ calls, sent)
      else
        (interrupted fuel (send_email smtp_server smtp_port email password giver receiver),
         false)
  end.

(** [send_emails] on a server that lets every call through ([None]) or only
    so many. *)
Definition deliver (patience : option nat) (results : list (Participant * Participant))
  (smtp_server : string) (smtp_port : nat) (email password : string)
  : list smtp_call * bool :=
  match patience with
  | None => (send_emails results smtp_server smtp_port email password, true)
  | Some fuel => send_emails_until fuel results smtp_server smtp_port email password
  end.

(** ** [main] *)

(** What the script touches: the workbooks it can read and the pandas that
    reads them, the clock, the files it can write and those it has written,
    the standard output, and the mail server with the calls made on it. *)
Record World : Type := mkWorld {
  workbooks : string -> option Workbook;
  pandas_version : pandas;
  clock : datetime;
  writable : string -> bool;
  disk : Disk;
  stdout : list string;
  patience : option nat;
  network : list smtp_call
}.

(** How the process ends: [main] returns, [sys.exit(code)], or an exception
    goes uncaught: one of the draw, of [pd.read_excel] on the path, of
    [to_excel] on the output file, or of smtplib. *)
Inductive termination : Type :=
| Finished
| SystemExit (code : nat)
| Uncaught (e : exn)
| ReadFailure
| WriteFailure
| MailFailure.

Definition print (line : string) (w : World) : World :=
  {| workbooks := workbooks w; pandas_version := pandas_version w; clock := clock w;
     writable := writable w; disk := disk w;
     stdout := stdout w ++ [line]; patience := patience w; network := network w |}.

Definition with_disk (d : Disk) (w : World) : World :=
  {| workbooks := workbooks w; pandas_version := pandas_version w; clock := clock w;
     writable := writable w; disk := d;
     stdout := stdout w; patience := patience w; network := network w |}.

Definition with_calls (calls : list smtp_call) (w : World) : World :=
  {| workbooks := workbooks w; pandas_version := pandas_version w; clock := clock w;
     writable := writable w; disk := disk w;
     stdout := stdout w; patience := patience w; network := network w ++ calls |}.

Section Main.
Context {Rng : Type} {RS : RandomSource Rng}.

(** Lines 112-142; [argv] is [sys.argv], the script's name first. *)
Definition main (argv : list string) (w : World) (rng : Rng)
  : termination * World * Rng :=
  if Nat.ltb (length argv) 3 then
    (SystemExit 1, print "Usage: python secret_santa.py <file_path> -test|-send" w, rng)
  else
    let file_path := nth 1 argv "" in
    let mode := nth 2 argv "" in
    match workbooks w file_path with
    | None => (ReadFailure, w, rng)
    | Some df =>
        let participants := load_participants df in
        let '(drawn, rng) :=
          secret_santa_draw_as (missing_category (pandas_version w) df) participants rng in
        match drawn with
        | Raise e => (Uncaught e, w, rng)
        | Return results =>
            if String.eqb mode "-test" then
              let '(output_file, d) := save_results_to_excel results (clock w) (disk w) in
              if writable w output_file then
                let w := with_disk d w in
                let w := print (String.concat ""
                           ["Tirage enregistré dans "; output_file; " en mode test."]) w in
                (Finished, w, rng)
              else (WriteFailure, w, rng)
            else if String.eqb mode "-send" then
              let '(output_file, d) := save_results_to_excel results (clock w) (disk w) in
              if writable w output_file then
                let w := with_disk d w in
                let w := print (String.concat ""
                           ["Tirage enregistré dans "; output_file;
                            ". Envoi des emails en cours..."]) w in
                let smtp_server := "smtp.example.com" in
                let smtp_port := 587 in
                let email := "your_email@example.com" in
                let password := "your_password" in
                let '(calls, sent) :=
                  deliver (patience w) results smtp_server smtp_port email password in
                let w := with_calls calls w in
                if sent then
                  let w := print "Emails envoyés." w in
                  (Finished, w, rng)
                else (MailFailure, w, rng)
              else (WriteFailure, w, rng)
            else
              let w := print "Argument non reconnu. Utilisez '-test' pour tester ou '-send' pour envoyer les emails." w in
              (SystemExit 1, w, rng)
        end
    end.
End Main.

(** ** Enumerating the orders of a list

    Used to decide a property of every shuffle outcome of a small input. *)

Fixpoint insert_everywhere {A : Type} (a : A) (l : list A) : list (list A) :=
  match l with
  | [] => [[a]]
  | h :: t => (a :: l) :: map (cons h) (insert_everywhere a t)
  end.

Fixpoint all_orders {A : Type} (l : list A) : list (list A) :=
  match l with
  | [] => [[]]
  | h :: t => flat_map (insert_everywhere h) (all_orders t)
  end.

(** ** Predicates and functions of the statements *)

(** The invariant of the scan: a partial matching among a set of candidates. *)
Definition partial_matching (candidates : list (nat * nat)) (m : dict) : Prop :=
  NoDup (keys m) /\ NoDup (values m) /\ incl m candidates.

(** Line 63 relates positions to rows. *)
Definition row_of (participants : DataFrame) (i : nat) (row : Participant) : Prop :=
  nth_error participants i = Some row.

Definition rows_of (participants : DataFrame) (ij : nat * nat)
  (gr : Participant * Participant) : Prop :=
  row_of participants (fst ij) (fst gr) /\ row_of participants (snd ij) (snd gr).

Definition rows_at (participants : DataFrame) (indices : list nat) : list Participant :=
  flat_map (fun i => match nth_error participants i with
                     | Some row => [row]
                     | None => []
                     end) indices.

(** Does the scan complete on every order of the candidates? *)
Definition always_completes (n : nat) (candidates : list (nat * nat)) : bool :=
  forallb (fun s => Nat.eqb (length (greedy_scan n s [])) n) (all_orders candidates).

Definition pair_eq_dec (a b : nat * nat) : {a = b} + {a <> b}.
Proof. decide equality; apply Nat.eq_dec. Defined.

(** A source that always hands out one given order of one given list. *)
Definition scripted (l l' : list (nat * nat)) (x : list (nat * nat)) (g : unit)
  : list (nat * nat) * unit :=
  if list_eq_dec pair_eq_dec x l then (l', g) else (x, g).

(** An assignment of the whole group that respects the exclusion rules,
    whether or not the greedy scan finds it. *)
Definition complete_matching (participants : DataFrame) (m : dict) : Prop :=
  Permutation (keys m) (seq 0 (length participants)) /\
  Permutation (values m) (seq 0 (length participants)) /\
  forall i j, In (i, j) m ->
    exists giver receiver,
      nth_error participants i = Some giver /\
      nth_error participants j = Some receiver /\
      identity giver <> identity receiver /\
      Categorie giver <> Categorie receiver.

(** How many participants of a frame are in category [c]. *)
Definition cat_dec (a b : option string) : {a = b} + {a <> b}.
Proof. decide equality. apply string_dec. Defined.

Definition category_size (c : option string) (participants : DataFrame) : nat :=
  count_occ cat_dec (map Categorie participants) c.

(** [l1] is [l2] with some elements left out, the order kept. *)
Inductive subsequence {A : Type} : list A -> list A -> Prop :=
| subsequence_nil : subsequence [] []
| subsequence_take (a : A) (l1 l2 : list A) :
    subsequence l1 l2 -> subsequence (a :: l1) (a :: l2)
| subsequence_skip (a : A) (l1 l2 : list A) :
    subsequence l1 l2 -> subsequence l1 (a :: l2).

(** The donor and the recipient a row of the saved sheet names. *)
Definition donor (row : list string) : string * string :=
  (nth 0 row "", nth 1 row "").

Definition recipient (row : list string) : string * string :=
  (nth 2 row "", nth 3 row "").

(** The envelope recipients and the messages of the [sendmail] calls. *)
Definition recipients (calls : list smtp_call) : list string :=
  flat_map (fun c => match c with
                     | sendmail _ to_addr _ => [to_addr]
                     | _ => []
                     end) calls.

(** Do two numbers below [bound] ever print as the same two digits? *)
Definition two_digits_distinct (bound : nat) : bool :=
  forallb (fun n =>
    forallb (fun m =>
      implb (String.eqb (two_digits n) (two_digits m)) (Nat.eqb n m))
      (seq 0 bound))
    (seq 0 bound).

(** The lines [main] prints on a wrong call. *)
Definition usage : string := "Usage: python secret_santa.py <file_path> -test|-send".

Definition unknown_mode : string :=
  "Argument non reconnu. Utilisez '-test' pour tester ou '-send' pour envoyer les emails.".

(** The draw [main] makes of a workbook it has read: the loaded frame, as the
    world's pandas reads it. *)
Definition draw_of_workbook {Rng : Type} {RS : RandomSource Rng}
  (w : World) (df : Workbook) (rng : Rng)
  : result (list (Participant * Participant)) * Rng :=
  secret_santa_draw_as (missing_category (pandas_version w) df) (load_participants df) rng.

(** The account written in the script, lines 133-136. *)
Definition mails_of (results : list (Participant * Participant)) : list smtp_call :=
  send_emails results "smtp.example.com" 587 "your_email@example.com" "your_password".

(** The file [main] saves to, at the time of the world's clock. *)
Definition output_file_of (w : World) : string :=
  String.concat "" ["secret_santa_results_"; strftime (clock w); ".xlsx"].

(** ** Sample groups *)

Definition alice : Participant :=
  mkParticipant "Martin" "Alice" "alice@example.org" (Some "Adulte").
Definition bob : Participant :=
  mkParticipant "Martin" "Bob" "bob@example.org" (Some "Adulte").
Definition carol : Participant :=
  mkParticipant "Martin" "Carol" "carol@example.org" (Some "Enfant").
Definition dave : Participant :=
  mkParticipant "Durand" "Dave" "dave@example.org" (Some "Enfant").

(** Two adults and two children. *)
Definition family : DataFrame := [alice; bob; carol; dave].

(** Two adults only. *)
Definition couple : DataFrame := [alice; bob].

(** Three participants, no two in the same category. *)
Definition trio : DataFrame :=
  [ mkParticipant "Petit" "Emma" "emma@example.org" (Some "A");
    mkParticipant "Petit" "Hugo" "hugo@example.org" (Some "B");
    mkParticipant "Roux" "Ines" "ines@example.org" (Some "C") ].

(** A workbook without the column 'Catégorie'. *)
Definition plain_workbook : Workbook :=
  WithoutCategorie [ ("Martin", "Alice", "alice@example.org");
                     ("Durand", "Dave", "dave@example.org") ].

(** The group of a workbook that has the column, fully filled. *)
Definition noel_workbook : Workbook :=
  WithCategorie [ ("Martin", "Alice", "alice@example.org", Some "Adulte");
                  ("Durand", "Dave", "dave@example.org", Some "Enfant") ].

(** A world with that workbook as noel.xlsx and a mail server that lets every
    call through. *)
Definition noel : World :=
  {| workbooks := fun path => if String.eqb path "noel.xlsx" then Some noel_workbook else None;
     pandas_version := Pandas3;
     clock := mkDatetime 2024 12 5 9 3 47;
     writable := fun _ => true;
     disk := fun _ => None;
     stdout := [];
     patience := None;
     network := [] |}.

(** The same world with a mail server that cannot be reached. *)
Definition noel_offline : World :=
  {| workbooks := workbooks noel;
     pandas_version := Pandas3;
     clock := clock noel;
     writable := fun _ => true;
     disk := fun _ => None;
     stdout := [];
     patience := Some 0;
     network := [] |}.

(** The two adults of [couple]: a group the draw cannot serve. *)
Definition adults_only : World :=
  {| workbooks := fun path =>
       if String.eqb path "adultes.xlsx"
       then Some (WithCategorie [ ("Martin", "Alice", "alice@example.org", Some "Adulte");
                                  ("Martin", "Bob", "bob@example.org", Some "Adulte") ])
       else None;
     pandas_version := Pandas3;
     clock := mkDatetime 2024 12 5 9 3 47;
     writable := fun _ => true;
     disk := fun _ => None;
     stdout := [];
     patience := None;
     network := [] |}.

(** A tape under which the shuffle of the six candidate pairs of [trio] starts
    with (0, 1), (1, 0). *)
Definition unlucky : Tape := [5; 4; 3; 1; 1].

(** * Properties *)

(** ** The cells *)

Lemma str_ne_true (a b : string) : str_ne a b = true <-> a <> b.
Proof.
  unfold str_ne. rewrite negb_true_iff. split.
  - intros E H. apply String.eqb_eq in H. congruence.
  - intros H. apply String.eqb_neq. exact H.
Qed.

Lemma cat_eqb_eq (a b : option string) : cat_eqb a b = true <-> a = b.
Proof.
  destruct a as [x|], b as [y|]; simpl; try (split; congruence).
  rewrite String.eqb_eq. split; congruence.
Qed.

Lemma cat_ne_true (a b : option string) : cat_ne a b = true <-> a <> b.
Proof.
  unfold cat_ne. rewrite negb_true_iff, <- cat_eqb_eq.
  destruct (cat_eqb a b); split; congruence.
Qed.

Lemma valid_pair_spec (giver receiver : Participant) :
  valid_pair giver receiver = true <->
  identity giver <> identity receiver /\ Categorie giver <> Categorie receiver.
Proof.
  unfold valid_pair, identity.
  rewrite andb_true_iff, orb_true_iff, !str_ne_true, cat_ne_true.
  split.
  - intros [[H | H] Hc]; split; congruence.
  - intros [Hi Hc]. split; [ | exact Hc ].
    destruct (string_dec (NOM giver) (NOM receiver)) as [E | E]; [ | now left ].
    right. intros E'. apply Hi. congruence.
Qed.

Lemma valid_pair_same_category (giver receiver : Participant) :
  Categorie giver = Categorie receiver -> valid_pair giver receiver = false.
Proof.
  intros E. apply not_true_is_false. rewrite valid_pair_spec. tauto.
Qed.

(** ** [iterrows] and [filter_valid_pairs] *)

Lemma In_combine_seq {A : Type} (l : list A) (s i : nat) (a : A) :
  In (i, a) (combine (seq s (length l)) l) <-> s <= i /\ nth_error l (i - s) = Some a.
Proof.
  revert s. induction l as [ | h t IH ]; intros s; simpl.
  - split; [ tauto | ]. intros [_ H]. destruct (i - s); discriminate.
  - rewrite IH. split.
    + intros [E | [Hle Hn]].
      * inversion E; subst. rewrite Nat.sub_diag. simpl. split; [ lia | reflexivity ].
      * split; [ lia | ]. replace (i - s) with (S (i - S s)) by lia. exact Hn.
    + intros [Hle Hn]. destruct (Nat.eq_dec s i) as [E | E].
      * subst. rewrite Nat.sub_diag in Hn. simpl in Hn. left. congruence.
      * right. split; [ lia | ].
        replace (i - s) with (S (i - S s)) in Hn by lia. exact Hn.
Qed.

Lemma In_iterrows (participants : DataFrame) (i : nat) (row : Participant) :
  In (i, row) (iterrows participants) <-> nth_error participants i = Some row.
Proof.
  unfold iterrows. rewrite In_combine_seq, Nat.sub_0_r. split; [ tauto | ].
  intros H. split; [ lia | exact H ].
Qed.

Lemma In_filter_valid_pairs (participants : DataFrame) (i j : nat) :
  In (i, j) (filter_valid_pairs participants) <->
  exists giver receiver,
    nth_error participants i = Some giver /\
    nth_error participants j = Some receiver /\
    valid_pair giver receiver = true.
Proof.
  unfold filter_valid_pairs. rewrite in_flat_map. split.
  - intros [[i' giver] [Hi H]]. apply in_flat_map in H.
    destruct H as [[j' receiver] [Hj H]].
    destruct (valid_pair giver receiver) eqn:V; simpl in H; [ | tauto ].
    destruct H as [E | []]. inversion E; subst.
    exists giver, receiver. rewrite <- !In_iterrows. auto.
  - intros (giver & receiver & Hi & Hj & V).
    exists (i, giver). rewrite In_iterrows. split; [ exact Hi | ].
    apply in_flat_map. exists (j, receiver). rewrite In_iterrows.
    split; [ exact Hj | ]. rewrite V. now left.
Qed.

Lemma filter_valid_pairs_bound (participants : DataFrame) (i j : nat) :
  In (i, j) (filter_valid_pairs participants) ->
  i < length participants /\ j < length participants.
Proof.
  rewrite In_filter_valid_pairs. intros (g & r & Hi & Hj & _).
  split; apply nth_error_Some; congruence.
Qed.

(** ** The dict *)

Lemma key_in_spec (k : nat) (d : dict) : key_in k d = true <-> In k (keys d).
Proof.
  unfold key_in. rewrite existsb_exists. split.
  - intros [x [Hx E]]. apply Nat.eqb_eq in E. now subst.
  - intros H. exists k. split; [ exact H | apply Nat.eqb_refl ].
Qed.

Lemma value_in_spec (v : nat) (d : dict) : value_in v d = true <-> In v (values d).
Proof.
  unfold value_in. rewrite existsb_exists. split.
  - intros [x [Hx E]]. apply Nat.eqb_eq in E. now subst.
  - intros H. exists v. split; [ exact H | apply Nat.eqb_refl ].
Qed.

Lemma key_in_false (k : nat) (d : dict) : key_in k d = false <-> ~ In k (keys d).
Proof.
  rewrite <- key_in_spec. destruct (key_in k d); split; congruence.
Qed.

Lemma value_in_false (v : nat) (d : dict) : value_in v d = false <-> ~ In v (values d).
Proof.
  rewrite <- value_in_spec. destruct (value_in v d); split; congruence.
Qed.

Lemma dict_set_fresh (d : dict) (k v : nat) :
  key_in k d = false -> dict_set d k v = d ++ [(k, v)].
Proof.
  unfold key_in, keys. induction d as [ | [k' v'] d IH ]; simpl; [ reflexivity | ].
  intros H. apply orb_false_iff in H. destruct H as [E H].
  rewrite E, IH by exact H. reflexivity.
Qed.

Lemma keys_app (d e : dict) : keys (d ++ e) = keys d ++ keys e.
Proof. apply map_app. Qed.

Lemma values_app (d e : dict) : values (d ++ e) = values d ++ values e.
Proof. apply map_app. Qed.

(** ** One step of the scan *)

Lemma commit_cases (matched : dict) (giver receiver : nat) :
  (key_in giver matched = false /\ value_in receiver matched = false /\
   commit matched (giver, receiver) = matched ++ [(giver, receiver)]) \/
  ((key_in giver matched = true \/ value_in receiver matched = true) /\
   commit matched (giver, receiver) = matched).
Proof.
  unfold commit.
  destruct (key_in giver matched) eqn:K; simpl; [ right; auto | ].
  destruct (value_in receiver matched) eqn:V; simpl; [ right; auto | ].
  left. rewrite dict_set_fresh by exact K. auto.
Qed.

Lemma commit_extends (matched : dict) (candidate : nat * nat) :
  exists added, commit matched candidate = matched ++ added.
Proof.
  destruct candidate as [g r].
  destruct (commit_cases matched g r) as [(_ & _ & E) | [_ E]]; rewrite E.
  - now exists [(g, r)].
  - exists []. now rewrite app_nil_r.
Qed.

Lemma greedy_scan_extends (n : nat) (pairs : list (nat * nat)) (matched : dict) :
  exists added, greedy_scan n pairs matched = matched ++ added.
Proof.
  revert matched. induction pairs as [ | p rest IH ]; intros matched; simpl.
  - exists []. now rewrite app_nil_r.
  - destruct (commit_extends matched p) as [a Ea].
    destruct (Nat.eqb (length (commit matched p)) n).
    + now exists a.
    + destruct (IH (commit matched p)) as [b Eb]. rewrite Eb, Ea.
      exists (a ++ b). now rewrite app_assoc.
Qed.

(** ** The invariant of the scan: a partial matching inside a candidate set *)

Lemma partial_matching_nil (candidates : list (nat * nat)) :
  partial_matching candidates [].
Proof.
  repeat split; try constructor. intros x [].
Qed.

Lemma NoDup_snoc {A : Type} (l : list A) (a : A) :
  NoDup l -> ~ In a l -> NoDup (l ++ [a]).
Proof.
  intros Hl Ha. apply NoDup_rev in Hl.
  rewrite <- (rev_involutive (l ++ [a])). apply NoDup_rev.
  rewrite rev_app_distr. simpl. constructor; [ | exact Hl ].
  now rewrite <- in_rev.
Qed.

Lemma commit_partial_matching (candidates : list (nat * nat)) (m : dict) (p : nat * nat) :
  partial_matching candidates m -> In p candidates ->
  partial_matching candidates (commit m p).
Proof.
  intros (Hk & Hv & Hin) Hp. destruct p as [g r].
  destruct (commit_cases m g r) as [(K & V & E) | [_ E]]; rewrite E.
  - apply key_in_false in K. apply value_in_false in V.
    repeat split.
    + rewrite keys_app. now apply NoDup_snoc.
    + rewrite values_app. now apply NoDup_snoc.
    + intros x Hx. apply in_app_or in Hx. destruct Hx as [Hx | [<- | []]]; auto.
  - repeat split; assumption.
Qed.

Lemma greedy_scan_partial_matching (candidates : list (nat * nat)) (n : nat)
  (pairs : list (nat * nat)) (m : dict) :
  partial_matching candidates m -> incl pairs candidates ->
  partial_matching candidates (greedy_scan n pairs m).
Proof.
  revert m. induction pairs as [ | p rest IH ]; intros m Hm Hincl; simpl.
  - exact Hm.
  - assert (Hc : partial_matching candidates (commit m p)).
    { apply commit_partial_matching; [ exact Hm | apply Hincl; now left ]. }
    destruct (Nat.eqb (length (commit m p)) n); [ exact Hc | ].
    apply IH; [ exact Hc | ]. intros x Hx. apply Hincl. now right.
Qed.

Lemma full_scan_partial_matching (candidates : list (nat * nat))
  (pairs : list (nat * nat)) (m : dict) :
  partial_matching candidates m -> incl pairs candidates ->
  partial_matching candidates (full_scan pairs m).
Proof.
  unfold full_scan. revert m.
  induction pairs as [ | p rest IH ]; intros m Hm Hincl; simpl.
  - exact Hm.
  - apply IH.
    + apply commit_partial_matching; [ exact Hm | apply Hincl; now left ].
    + intros x Hx. apply Hincl. now right.
Qed.

(** ** Matchings among the candidate pairs of a group *)

Section Candidates.
Variable participants : DataFrame.
Let N := length participants.
Let candidates := filter_valid_pairs participants.

Variable m : dict.
Hypothesis Hm : partial_matching candidates m.

Lemma partial_matching_keys_bound : incl (keys m) (seq 0 N).
Proof.
  destruct Hm as (_ & _ & Hin). intros k Hk.
  apply in_map_iff in Hk. destruct Hk as [[g r] [E Hx]]. simpl in E. subst g.
  apply Hin, filter_valid_pairs_bound in Hx. apply in_seq. subst N. lia.
Qed.

Lemma partial_matching_values_bound : incl (values m) (seq 0 N).
Proof.
  destruct Hm as (_ & _ & Hin). intros k Hk.
  apply in_map_iff in Hk. destruct Hk as [[g r] [E Hx]]. simpl in E. subst r.
  apply Hin, filter_valid_pairs_bound in Hx. apply in_seq. subst N. lia.
Qed.

Lemma partial_matching_length : length m <= N.
Proof.
  destruct Hm as (Hk & _ & _).
  pose proof (NoDup_incl_length Hk partial_matching_keys_bound) as H.
  unfold keys in H. rewrite length_map, length_seq in H. exact H.
Qed.

Lemma complete_keys : length m = N -> Permutation (keys m) (seq 0 N).
Proof.
  intros L. destruct Hm as (Hk & _ & _).
  apply NoDup_Permutation_bis; [ exact Hk | | apply partial_matching_keys_bound ].
  unfold keys. rewrite length_map, length_seq. lia.
Qed.

Lemma complete_values : length m = N -> Permutation (values m) (seq 0 N).
Proof.
  intros L. destruct Hm as (_ & Hv & _).
  apply NoDup_Permutation_bis; [ exact Hv | | apply partial_matching_values_bound ].
  unfold values. rewrite length_map, length_seq. lia.
Qed.

(** Once every participant gives, no candidate can be committed any more. *)
Lemma complete_commit (p : nat * nat) :
  length m = N -> In p candidates -> commit m p = m.
Proof.
  intros L Hp. destruct p as [g r].
  destruct (commit_cases m g r) as [(K & _ & _) | [_ E]]; [ exfalso | exact E ].
  apply key_in_false in K. apply K.
  apply (Permutation_in g (Permutation_sym (complete_keys L))).
  apply filter_valid_pairs_bound in Hp. apply in_seq. subst N. lia.
Qed.
End Candidates.

Lemma complete_full_scan (participants : DataFrame) (pairs : list (nat * nat)) (m : dict) :
  partial_matching (filter_valid_pairs participants) m ->
  length m = length participants ->
  incl pairs (filter_valid_pairs participants) ->
  full_scan pairs m = m.
Proof.
  intros Hm L. unfold full_scan.
  induction pairs as [ | p rest IH ]; intros Hincl; simpl; [ reflexivity | ].
  rewrite (complete_commit participants m Hm p L) by (apply Hincl; now left).
  apply IH. intros x Hx. apply Hincl. now right.
Qed.

(** Lines 57-58 only save time: the loop with the [break] computes what the
    loop without it computes. *)
Lemma greedy_scan_full_scan (participants : DataFrame) (pairs : list (nat * nat)) (m : dict) :
  partial_matching (filter_valid_pairs participants) m ->
  incl pairs (filter_valid_pairs participants) ->
  greedy_scan (length participants) pairs m = full_scan pairs m.
Proof.
  revert m. induction pairs as [ | p rest IH ]; intros m Hm Hincl; simpl.
  - reflexivity.
  - assert (Hc : partial_matching (filter_valid_pairs participants) (commit m p)).
    { apply commit_partial_matching; [ exact Hm | apply Hincl; now left ]. }
    assert (Hrest : incl rest (filter_valid_pairs participants)).
    { intros x Hx. apply Hincl. now right. }
    unfold full_scan. simpl.
    destruct (Nat.eqb (length (commit m p)) (length participants)) eqn:E.
    + apply Nat.eqb_eq in E. symmetry.
      apply (complete_full_scan participants rest _ Hc E Hrest).
    + apply IH; assumption.
Qed.

(** ** Line 63: from indices to rows *)

Lemma results_Return (participants : DataFrame) (items : dict)
  (res : list (Participant * Participant)) :
  results participants items = Return res <->
  Forall2 (rows_of participants) items res.
Proof.
  revert res. induction items as [ | [i j] rest IH ]; intros res; simpl.
  - split.
    + intros E. inversion E. constructor.
    + intros H. inversion H. reflexivity.
  - unfold iloc, rows_of, row_of in *.
    destruct (nth_error participants i) as [g | ] eqn:Hi; simpl.
    2:{ split; [ discriminate | ]. intros H. inversion H; subst.
        simpl in *. destruct H2; congruence. }
    destruct (nth_error participants j) as [r | ] eqn:Hj; simpl.
    2:{ split; [ discriminate | ]. intros H. inversion H; subst.
        simpl in *. destruct H2; congruence. }
    destruct (results participants rest) as [tl | e] eqn:R; simpl.
    + split.
      * intros E. inversion E; subst. constructor; [ simpl; auto | now apply IH ].
      * intros H. inversion H as [ | ? [g' r'] ? tl' [Hg Hr] Htl ]; subst.
        simpl in *. apply IH in Htl. congruence.
    + split; [ discriminate | ]. intros H.
      inversion H as [ | ? ? ? tl' _ Htl ]; subst. apply IH in Htl. discriminate.
Qed.

Lemma results_in_bounds (participants : DataFrame) (items : dict) :
  (forall i j, In (i, j) items -> i < length participants /\ j < length participants) ->
  exists res, results participants items = Return res.
Proof.
  induction items as [ | [i j] rest IH ]; intros Hb; simpl.
  - now exists [].
  - destruct (Hb i j (or_introl eq_refl)) as [Hi Hj].
    apply nth_error_Some in Hi, Hj. unfold iloc.
    destruct (nth_error participants i) as [g | ]; [ | congruence ].
    destruct (nth_error participants j) as [r | ]; [ | congruence ].
    destruct IH as [tl Etl]. { intros a b Hab. apply Hb. now right. }
    simpl. rewrite Etl. simpl. now exists ((g, r) :: tl).
Qed.

Lemma results_never_raise_Exception (participants : DataFrame) (items : dict) (msg : string) :
  results participants items <> Raise (Exception msg).
Proof.
  induction items as [ | [i j] rest IH ]; simpl; [ discriminate | ].
  unfold iloc.
  destruct (nth_error participants i); simpl; [ | discriminate ].
  destruct (nth_error participants j); simpl; [ | discriminate ].
  destruct (results participants rest) as [tl | e]; simpl; [ discriminate | ].
  congruence.
Qed.

Lemma Forall2_rows_In (participants : DataFrame) (items : dict)
  (res : list (Participant * Participant)) (g r : Participant) :
  Forall2 (rows_of participants) items res -> In (g, r) res ->
  exists i j, In (i, j) items /\ row_of participants i g /\ row_of participants j r.
Proof.
  induction 1 as [ | [i j] [g' r'] items' res' [Hg Hr] _ IH ]; simpl; [ tauto | ].
  intros [E | Hin].
  - inversion E; subst. exists i, j. auto.
  - destruct (IH Hin) as (a & b & Hab & H'). exists a, b. auto.
Qed.

Lemma rows_at_seq (before participants : DataFrame) :
  rows_at (before ++ participants) (seq (length before) (length participants)) = participants.
Proof.
  revert before. induction participants as [ | p ps IH ]; intros before; simpl.
  - reflexivity.
  - rewrite nth_error_app2, Nat.sub_diag by lia. simpl. f_equal.
    specialize (IH (before ++ [p])).
    rewrite <- app_assoc, length_app, Nat.add_1_r in IH. exact IH.
Qed.

Lemma rows_at_all (participants : DataFrame) :
  rows_at participants (seq 0 (length participants)) = participants.
Proof. exact (rows_at_seq [] participants). Qed.

Lemma Forall2_row_of_rows_at (participants : DataFrame) (indices : list nat)
  (rows : list Participant) :
  Forall2 (row_of participants) indices rows -> rows = rows_at participants indices.
Proof.
  induction 1 as [ | i row indices' rows' Hrow _ IH ]; simpl; [ reflexivity | ].
  unfold row_of in Hrow. rewrite Hrow. simpl. now f_equal.
Qed.

Lemma Forall2_rows_givers (participants : DataFrame) (items : dict)
  (res : list (Participant * Participant)) :
  Forall2 (rows_of participants) items res ->
  Forall2 (row_of participants) (keys items) (map fst res).
Proof.
  induction 1 as [ | ij gr items' res' [Hg _] _ IH ]; simpl; constructor; assumption.
Qed.

Lemma Forall2_rows_receivers (participants : DataFrame) (items : dict)
  (res : list (Participant * Participant)) :
  Forall2 (rows_of participants) items res ->
  Forall2 (row_of participants) (values items) (map snd res).
Proof.
  induction 1 as [ | ij gr items' res' [_ Hr] _ IH ]; simpl; constructor; assumption.
Qed.

Lemma rows_Permutation (participants : DataFrame) (indices : list nat)
  (rows : list Participant) :
  Permutation indices (seq 0 (length participants)) ->
  Forall2 (row_of participants) indices rows ->
  Permutation rows participants.
Proof.
  intros Hp Hf. rewrite (Forall2_row_of_rows_at _ _ _ Hf).
  rewrite <- (rows_at_all participants) at 2.
  unfold rows_at. apply Permutation_flat_map. exact Hp.
Qed.

(** ** The shuffle on a tape *)

Lemma set_nth_split {A : Type} (x : list A) (i : nat) (a b : A) :
  nth_error x i = Some a ->
  exists l r, x = l ++ a :: r /\ length l = i /\ set_nth x i b = l ++ b :: r.
Proof.
  revert i. induction x as [ | h t IH ]; intros [ | i ] H; simpl in *; try discriminate.
  - inversion H; subst. now exists [], t.
  - destruct (IH i H) as (l & r & E & L & S').
    exists (h :: l), r. simpl. rewrite S', L. subst t. auto.
Qed.

Lemma nth_error_set_nth_other {A : Type} (x : list A) (i j : nat) (b : A) :
  i <> j -> nth_error (set_nth x i b) j = nth_error x j.
Proof.
  revert i j. induction x as [ | h t IH ]; intros [ | i ] [ | j ] H; simpl; auto.
  congruence.
Qed.

Lemma set_nth_same {A : Type} (x : list A) (i : nat) (a : A) :
  nth_error x i = Some a -> set_nth x i a = x.
Proof.
  revert i. induction x as [ | h t IH ]; intros [ | i ] H; simpl in *; try discriminate.
  - congruence.
  - f_equal. now apply IH.
Qed.

Lemma set_nth_set_nth {A : Type} (x : list A) (i : nat) (a b : A) :
  set_nth (set_nth x i a) i b = set_nth x i b.
Proof.
  revert i. induction x as [ | h t IH ]; intros [ | i ]; simpl; auto.
  f_equal. apply IH.
Qed.

Lemma swap_Permutation {A : Type} (x : list A) (i j : nat) : Permutation x (swap x i j).
Proof.
  unfold swap.
  destruct (nth_error x i) as [xi | ] eqn:Hi; [ | reflexivity ].
  destruct (nth_error x j) as [xj | ] eqn:Hj; [ | reflexivity ].
  destruct (Nat.eq_dec i j) as [E | E].
  - subst j. rewrite set_nth_set_nth, set_nth_same by exact Hi. reflexivity.
  - destruct (set_nth_split x i xi xj Hi) as (l & r & Ex & L & S1).
    assert (Hj' : nth_error (set_nth x i xj) j = Some xj).
    { rewrite nth_error_set_nth_other by exact E. exact Hj. }
    destruct (set_nth_split _ j xj xi Hj') as (l' & r' & Ex' & L' & S2).
    rewrite S2. rewrite Ex at 1.
    transitivity (xi :: l ++ r); [ symmetry; apply Permutation_middle | ].
    transitivity (xi :: l' ++ r'); [ | apply Permutation_middle ].
    apply perm_skip. apply (Permutation_cons_inv (a := xj)).
    transitivity (l ++ xj :: r); [ apply Permutation_middle | ].
    rewrite <- S1, Ex'. symmetry. apply Permutation_middle.
Qed.

Lemma shuffle_from_Permutation {A : Type} (i : nat) (x : list A) (g : Tape) :
  Permutation x (fst (shuffle_from i x g)).
Proof.
  revert x g. induction i as [ | i IH ]; intros x g; simpl; [ reflexivity | ].
  destruct (randbelow (S (S i)) g) as [j g'].
  transitivity (swap x (S i) j); [ apply swap_Permutation | apply IH ].
Qed.

Lemma random_shuffle_Permutation {A : Type} (x : list A) (g : Tape) :
  Permutation x (fst (random_shuffle x g)).
Proof. apply shuffle_from_Permutation. Qed.

(** The tape with CPython's shuffle is a random source. *)
#[export] Instance tape_source : RandomSource Tape := {|
  shuffle := random_shuffle;
  shuffle_Permutation := random_shuffle_Permutation
|}.

Lemma scripted_Permutation (l l' : list (nat * nat)) :
  Permutation l l' -> forall x g, Permutation x (fst (scripted l l' x g)).
Proof.
  intros H x g. unfold scripted.
  destruct (list_eq_dec _ x l); simpl; [ now subst | reflexivity ].
Qed.

(** Every order of the candidate pairs is the outcome of some random source. *)
Lemma every_order_is_a_shuffle_outcome (l l' : list (nat * nat)) :
  Permutation l l' ->
  exists (RS : RandomSource unit), fst (shuffle l tt) = l'.
Proof.
  intros H.
  exists {| shuffle := scripted l l'; shuffle_Permutation := scripted_Permutation l l' H |}.
  simpl. unfold scripted. destruct (list_eq_dec _ l l); [ reflexivity | congruence ].
Qed.

(** ** Every order is enumerated *)

Lemma insert_everywhere_In {A : Type} (a : A) (l r : list A) :
  In (l ++ a :: r) (insert_everywhere a (l ++ r)).
Proof.
  induction l as [ | h t IH ]; simpl.
  - destruct r; simpl; auto.
  - right. apply in_map. exact IH.
Qed.

Lemma all_orders_complete {A : Type} (l l' : list A) :
  Permutation l l' -> In l' (all_orders l).
Proof.
  revert l'. induction l as [ | h t IH ]; intros l' H; simpl.
  - apply Permutation_nil in H. now left.
  - assert (Hin : In h l') by (apply (Permutation_in h H); now left).
    apply in_split in Hin. destruct Hin as (l1 & l2 & ->).
    apply Permutation_cons_app_inv in H.
    apply in_flat_map. exists (l1 ++ l2). split; [ now apply IH | ].
    apply insert_everywhere_In.
Qed.

(** ** The draw, step by step *)

Section DrawFacts.
Context {Rng : Type} {RS : RandomSource Rng}.
Variable participants : DataFrame.
Variable rng : Rng.

Lemma shuffled_pairs_Permutation :
  Permutation (filter_valid_pairs participants) (shuffled_pairs participants rng).
Proof. apply shuffle_Permutation. Qed.

Lemma shuffled_pairs_incl :
  incl (shuffled_pairs participants rng) (filter_valid_pairs participants).
Proof.
  intros x Hx. apply (Permutation_in x (Permutation_sym shuffled_pairs_Permutation) Hx).
Qed.

Lemma secret_santa_draw_unfold :
  fst (secret_santa_draw participants rng) =
  if negb (Nat.eqb (length (draw_matched participants rng)) (length participants))
  then Raise (Exception infeasible)
  else results participants (draw_matched participants rng).
Proof.
  unfold secret_santa_draw, draw_matched, shuffled_pairs.
  destruct (shuffle (filter_valid_pairs participants) rng) as [pairs rng']. simpl.
  destruct (negb _); reflexivity.
Qed.

Lemma scan_prefix_partial_matching (k : nat) :
  partial_matching (filter_valid_pairs participants)
    (greedy_scan (length participants) (firstn k (shuffled_pairs participants rng)) []).
Proof.
  apply greedy_scan_partial_matching; [ apply partial_matching_nil | ].
  intros x Hx. apply shuffled_pairs_incl.
  rewrite <- (firstn_skipn k (shuffled_pairs participants rng)).
  apply in_or_app. now left.
Qed.

Lemma draw_matched_partial_matching :
  partial_matching (filter_valid_pairs participants) (draw_matched participants rng).
Proof.
  apply greedy_scan_partial_matching;
    [ apply partial_matching_nil | apply shuffled_pairs_incl ].
Qed.

Lemma draw_matched_full_scan :
  draw_matched participants rng = full_scan (shuffled_pairs participants rng) [].
Proof.
  apply greedy_scan_full_scan; [ apply partial_matching_nil | apply shuffled_pairs_incl ].
Qed.

Lemma draw_matched_bounds (i j : nat) :
  In (i, j) (draw_matched participants rng) ->
  i < length participants /\ j < length participants.
Proof.
  intros H. apply filter_valid_pairs_bound.
  destruct draw_matched_partial_matching as (_ & _ & Hin). now apply Hin.
Qed.

Lemma draw_Return (res : list (Participant * Participant)) :
  fst (secret_santa_draw participants rng) = Return res <->
  length (draw_matched participants rng) = length participants /\
  Forall2 (rows_of participants) (draw_matched participants rng) res.
Proof.
  rewrite secret_santa_draw_unfold, <- results_Return.
  destruct (Nat.eqb_spec (length (draw_matched participants rng)) (length participants));
    simpl; split; try tauto; try discriminate.
Qed.

Lemma draw_Raise_infeasible :
  fst (secret_santa_draw participants rng) = Raise (Exception infeasible) <->
  length (draw_matched participants rng) <> length participants.
Proof.
  rewrite secret_santa_draw_unfold.
  destruct (Nat.eqb_spec (length (draw_matched participants rng)) (length participants));
    simpl; split; try tauto.
  intros H. exfalso. revert H. apply results_never_raise_Exception.
Qed.

Lemma draw_complete_Returns :
  length (draw_matched participants rng) = length participants ->
  exists res, fst (secret_santa_draw participants rng) = Return res.
Proof.
  intros L. destruct (results_in_bounds participants (draw_matched participants rng))
    as [res E]; [ apply draw_matched_bounds | ].
  exists res. apply draw_Return. split; [ exact L | ]. now apply results_Return.
Qed.

End DrawFacts.

(** ** The early exit *)

Lemma snoc_neq {A : Type} (l : list A) (a : A) : l ++ [a] <> l.
Proof.
  intros E. apply (f_equal (@length A)) in E. rewrite length_app in E. simpl in E. lia.
Qed.

Lemma greedy_scan_stops (n : nat) (first : nat * nat) (scanned later : list (nat * nat))
  (matched : dict) :
  length (greedy_scan n (first :: scanned) matched) = n ->
  greedy_scan n ((first :: scanned) ++ later) matched =
  greedy_scan n (first :: scanned) matched.
Proof.
  revert first matched. induction scanned as [ | p rest IH ]; intros first matched.
  - simpl. destruct (Nat.eqb_spec (length (commit matched first)) n); [ reflexivity | ].
    intros L. contradiction.
  - intros L. change (greedy_scan n (first :: (p :: rest) ++ later) matched =
                      greedy_scan n (first :: p :: rest) matched).
    cbn [greedy_scan] in L |- *.
    destruct (Nat.eqb (length (commit matched first)) n); [ reflexivity | ].
    apply (IH p (commit matched first)). exact L.
Qed.

(** ** Small groups, every order *)

Lemma always_completes_sound (n : nat) (candidates s : list (nat * nat)) :
  always_completes n candidates = true ->
  Permutation candidates s ->
  length (greedy_scan n s []) = n.
Proof.
  unfold always_completes. rewrite forallb_forall. intros H P.
  apply Nat.eqb_eq. apply H. now apply all_orders_complete.
Qed.

Lemma valid_pair_distinct (giver receiver : Participant) :
  identity giver <> identity receiver ->
  Categorie giver <> Categorie receiver ->
  valid_pair giver receiver = true.
Proof. intros. apply valid_pair_spec. tauto. Qed.

Ltac decide_valid_pairs :=
  repeat match goal with
  | H : context [valid_pair ?g ?r] |- _ =>
      first [ rewrite (valid_pair_same_category g r) in H by congruence
            | rewrite (valid_pair_distinct g r) in H by congruence ]
  end.

Lemma two_alike_no_candidate (p q : Participant) :
  Categorie p = Categorie q -> filter_valid_pairs [p; q] = [].
Proof.
  intros E. unfold filter_valid_pairs, iterrows. cbn [length seq combine flat_map app].
  rewrite !valid_pair_same_category by congruence. reflexivity.
Qed.

Lemma four_in_two_pairs_complete (p0 p1 p2 p3 : Participant) (a b : option string)
  (s : list (nat * nat)) :
  a <> b ->
  NoDup (map identity [p0; p1; p2; p3]) ->
  Permutation [a; a; b; b] (map Categorie [p0; p1; p2; p3]) ->
  Permutation (filter_valid_pairs [p0; p1; p2; p3]) s ->
  length (greedy_scan 4 s []) = 4.
Proof.
  intros Hab Hnd Hcat HP.
  assert (D01 : identity p0 <> identity p1 /\ identity p0 <> identity p2 /\
                identity p0 <> identity p3 /\ identity p1 <> identity p2 /\
                identity p1 <> identity p3 /\ identity p2 <> identity p3).
  { simpl in Hnd.
    inversion Hnd as [ | ? ? N0 Hnd1 ]; subst.
    inversion Hnd1 as [ | ? ? N1 Hnd2 ]; subst.
    inversion Hnd2 as [ | ? ? N2 _ ]; subst.
    simpl in N0, N1, N2. repeat split; intros E; rewrite E in *; tauto. }
  destruct D01 as (D01 & D02 & D03 & D12 & D13 & D23).
  apply all_orders_complete in Hcat.
  unfold filter_valid_pairs, iterrows in HP.
  cbn [length seq combine flat_map app] in HP.
  cbn [all_orders insert_everywhere flat_map map app In] in Hcat.
  repeat (destruct Hcat as [Hcat | Hcat]); try contradiction;
    injection Hcat as C0 C1 C2 C3;
    decide_valid_pairs;
    cbn [app] in HP;
    (refine (always_completes_sound 4 _ s _ HP)); vm_compute; reflexivity.
Qed.

(** ** Groups without a candidate pair *)

Lemma one_category_no_candidate (participants : DataFrame) :
  (forall p q, In p participants -> In q participants -> Categorie p = Categorie q) ->
  filter_valid_pairs participants = [].
Proof.
  intros Hsame.
  destruct (filter_valid_pairs participants) as [ | [i j] rest ] eqn:E; [ reflexivity | ].
  exfalso.
  assert (Hin : In (i, j) (filter_valid_pairs participants)) by (rewrite E; now left).
  apply In_filter_valid_pairs in Hin. destruct Hin as (g & r & Hg & Hr & V).
  rewrite valid_pair_same_category in V; [ discriminate | ].
  apply Hsame; eapply nth_error_In; eassumption.
Qed.

Lemma no_candidate_draw {Rng : Type} {RS : RandomSource Rng}
  (participants : DataFrame) (rng : Rng) :
  filter_valid_pairs participants = [] ->
  draw_matched participants rng = [].
Proof.
  intros E. unfold draw_matched.
  pose proof (shuffled_pairs_Permutation participants rng) as HP.
  rewrite E in HP. apply Permutation_nil in HP. rewrite HP. reflexivity.
Qed.

(** ** The draw under either reading of a missing category *)

Lemma filter_valid_pairs_as_ReadsNone (participants : DataFrame) :
  filter_valid_pairs_as ReadsNone participants = filter_valid_pairs participants.
Proof. reflexivity. Qed.

Lemma secret_santa_draw_as_ReadsNone {Rng : Type} {RS : RandomSource Rng}
  (participants : DataFrame) (rng : Rng) :
  secret_santa_draw_as ReadsNone participants rng = secret_santa_draw participants rng.
Proof. reflexivity. Qed.

Lemma valid_pair_as_categorised (m : missing) (giver receiver : Participant) :
  Categorie giver <> None -> Categorie receiver <> None ->
  valid_pair_as m giver receiver = valid_pair giver receiver.
Proof.
  intros Hg Hr. unfold valid_pair_as, valid_pair, cat_ne_as, cat_ne, cat_eqb, str_ne.
  destruct m; [ reflexivity | ].
  destruct (Categorie giver), (Categorie receiver); congruence.
Qed.

Lemma flat_map_ext_In {A B : Type} (f g : A -> list B) (l : list A) :
  (forall a, In a l -> f a = g a) -> flat_map f l = flat_map g l.
Proof.
  induction l as [ | a l IH ]; intros H; simpl; [ reflexivity | ].
  rewrite (H a (or_introl eq_refl)), IH; [ reflexivity | ].
  intros b Hb. apply H. now right.
Qed.

(** On a frame where no category is missing the reading makes no difference:
    what holds of [filter_valid_pairs] and [secret_santa_draw] holds of the
    code under any pandas. *)
Lemma filter_valid_pairs_as_categorised (m : missing) (participants : DataFrame) :
  Forall (fun p => Categorie p <> None) participants ->
  filter_valid_pairs_as m participants = filter_valid_pairs participants.
Proof.
  intros H. rewrite Forall_forall in H.
  assert (Hrow : forall i p, In (i, p) (iterrows participants) -> Categorie p <> None).
  { intros i p Hin. apply H. apply In_iterrows in Hin. eapply nth_error_In. exact Hin. }
  unfold filter_valid_pairs_as, filter_valid_pairs.
  apply flat_map_ext_In. intros [i g] Hg.
  apply flat_map_ext_In. intros [j r] Hr.
  rewrite valid_pair_as_categorised; [ reflexivity | eapply Hrow; eassumption .. ].
Qed.

Lemma secret_santa_draw_as_categorised {Rng : Type} {RS : RandomSource Rng}
  (m : missing) (participants : DataFrame) (rng : Rng) :
  Forall (fun p => Categorie p <> None) participants ->
  secret_santa_draw_as m participants rng = secret_santa_draw participants rng.
Proof.
  intros H. unfold secret_santa_draw_as, secret_santa_draw.
  now rewrite (filter_valid_pairs_as_categorised m participants H).
Qed.

Lemma In_filter_valid_pairs_as (m : missing) (participants : DataFrame) (i j : nat) :
  In (i, j) (filter_valid_pairs_as m participants) <->
  exists giver receiver,
    nth_error participants i = Some giver /\
    nth_error participants j = Some receiver /\
    valid_pair_as m giver receiver = true.
Proof.
  unfold filter_valid_pairs_as. rewrite in_flat_map. split.
  - intros [[i' giver] [Hi H]]. apply in_flat_map in H.
    destruct H as [[j' receiver] [Hj H]].
    destruct (valid_pair_as m giver receiver) eqn:V; simpl in H; [ | tauto ].
    destruct H as [E | []]. inversion E; subst.
    exists giver, receiver. rewrite <- !In_iterrows. auto.
  - intros (giver & receiver & Hi & Hj & V).
    exists (i, giver). rewrite In_iterrows. split; [ exact Hi | ].
    apply in_flat_map. exists (j, receiver). rewrite In_iterrows.
    split; [ exact Hj | ]. rewrite V. now left.
Qed.

Lemma identity_differs (giver receiver : Participant) :
  str_ne (NOM giver) (NOM receiver) || str_ne (Prenom giver) (Prenom receiver) = true <->
  identity giver <> identity receiver.
Proof.
  unfold identity. rewrite orb_true_iff, !str_ne_true. split.
  - intros [H | H]; congruence.
  - intros Hi. destruct (string_dec (NOM giver) (NOM receiver)) as [E | E]; [ | now left ].
    right. intros E'. apply Hi. congruence.
Qed.

(** A missing category that reads NaN excludes nobody. *)
Lemma valid_pair_as_NaN (giver receiver : Participant) :
  Categorie giver = None \/ Categorie receiver = None ->
  (valid_pair_as ReadsNaN giver receiver = true <-> identity giver <> identity receiver).
Proof.
  intros H. unfold valid_pair_as. rewrite andb_true_iff, identity_differs.
  assert (C : cat_ne_as ReadsNaN (Categorie giver) (Categorie receiver) = true).
  { unfold cat_ne_as. destruct H as [-> | ->]; [ reflexivity | ].
    destruct (Categorie giver); reflexivity. }
  rewrite C. tauto.
Qed.

(** A missing category that reads [None] is a category like another. *)
Lemma valid_pair_as_None (giver receiver : Participant) :
  Categorie giver = Categorie receiver -> valid_pair_as ReadsNone giver receiver = false.
Proof. apply valid_pair_same_category. Qed.

Lemma loaded_without_categories (rows : list (string * string * string)) (p : Participant) :
  In p (load_participants (WithoutCategorie rows)) -> Categorie p = None.
Proof.
  simpl. intros Hp. apply in_map_iff in Hp.
  destruct Hp as [[[nom prenom] email] [<- _]]. reflexivity.
Qed.

Section DrawAsFacts.
Context {Rng : Type} {RS : RandomSource Rng}.
Variable m : missing.
Variable participants : DataFrame.
Variable rng : Rng.

Lemma shuffled_pairs_as_Permutation :
  Permutation (filter_valid_pairs_as m participants) (shuffled_pairs_as m participants rng).
Proof. apply shuffle_Permutation. Qed.

Lemma secret_santa_draw_as_unfold :
  secret_santa_draw_as m participants rng =
  (if negb (Nat.eqb (length (draw_matched_as m participants rng)) (length participants))
   then Raise (Exception infeasible)
   else results participants (draw_matched_as m participants rng),
   snd (shuffle (filter_valid_pairs_as m participants) rng)).
Proof.
  unfold secret_santa_draw_as, draw_matched_as, shuffled_pairs_as.
  destruct (shuffle (filter_valid_pairs_as m participants) rng) as [pairs rng']. simpl.
  destruct (negb _); reflexivity.
Qed.

End DrawAsFacts.

(** ** The heap *)

Lemma length_set_nth {A : Type} (x : list A) (i : nat) (a : A) :
  length (set_nth x i a) = length x.
Proof.
  revert i. induction x as [ | h t IH ]; intros [ | i ]; simpl; auto.
Qed.

Lemma nth_error_set_nth_same {A : Type} (x : list A) (i : nat) (a : A) :
  i < length x -> nth_error (set_nth x i a) i = Some a.
Proof.
  revert i. induction x as [ | h t IH ]; intros [ | i ] H; simpl in *; try lia.
  - reflexivity.
  - apply IH. lia.
Qed.

Lemma set_nth_last {A : Type} (x : list A) (a b : A) :
  set_nth (x ++ [a]) (length x) b = x ++ [b].
Proof.
  induction x as [ | h t IH ]; simpl; [ reflexivity | ]. now rewrite IH.
Qed.

Lemma nth_error_last {A : Type} (x : list A) (a : A) :
  nth_error (x ++ [a]) (length x) = Some a.
Proof.
  rewrite nth_error_app2, Nat.sub_diag by lia. reflexivity.
Qed.

(** The loop writes the dict and nothing else: it leaves the heap as it was
    but for the object at [matched], which ends as [greedy_scan] says. *)
Lemma scan_in_greedy_scan (h : Heap) (matched n : nat) (pairs : list (nat * nat)) (d : dict) :
  nth_error h matched = Some (DictObject d) ->
  scan_in h matched n pairs = assign h matched (DictObject (greedy_scan n pairs d)).
Proof.
  revert h d. induction pairs as [ | c rest IH ]; intros h d Hd; simpl.
  - unfold assign. symmetry. now apply set_nth_same.
  - rewrite Hd.
    destruct (Nat.eqb (length (commit d c)) n); [ reflexivity | ].
    assert (Hlt : matched < length h) by (apply nth_error_Some; congruence).
    rewrite (IH _ (commit d c)).
    + unfold assign. apply set_nth_set_nth.
    + unfold assign. now apply nth_error_set_nth_same.
Qed.

Section DrawInFacts.
Context {Rng : Type} {RS : RandomSource Rng}.

(** A call of the draw on a frame of the heap returns what
    [secret_santa_draw_as] returns on its rows, and leaves behind the heap it
    found with two objects more: the shuffled list and the dict. *)
Lemma secret_santa_draw_in_spec (m : missing) (h : Heap) (participants : nat)
  (rows : DataFrame) (rng : Rng) :
  nth_error h participants = Some (FrameObject rows) ->
  secret_santa_draw_in m h participants rng =
  Some (fst (secret_santa_draw_as m rows rng),
        h ++ [ListObject (shuffled_pairs_as m rows rng)]
          ++ [DictObject (draw_matched_as m rows rng)],
        snd (secret_santa_draw_as m rows rng)).
Proof.
  intros Hp. rewrite secret_santa_draw_as_unfold. cbn [fst snd].
  unfold secret_santa_draw_in, allocate, draw_matched_as, shuffled_pairs_as.
  assert (Hlt : participants < length h) by (apply nth_error_Some; congruence).
  rewrite Hp, nth_error_last.
  destruct (shuffle (filter_valid_pairs_as m rows) rng) as [l rng'] eqn:Es. cbn [fst snd].
  unfold assign. rewrite set_nth_last.
  assert (Hpairs : nth_error ((h ++ [ListObject l]) ++ [DictObject []]) (length h)
                   = Some (ListObject l)).
  { rewrite nth_error_app1 by (rewrite length_app; simpl; lia). apply nth_error_last. }
  assert (Hframe : forall tail, nth_error ((h ++ [ListObject l]) ++ tail) participants
                                = Some (FrameObject rows)).
  { intros tail. rewrite <- app_assoc. rewrite nth_error_app1 by exact Hlt. exact Hp. }
  rewrite Hpairs, Hframe.
  rewrite (scan_in_greedy_scan _ _ _ _ []) by apply nth_error_last.
  unfold assign. rewrite set_nth_last, nth_error_last, Hframe.
  rewrite <- app_assoc.
  destruct (negb _); reflexivity.
Qed.

End DrawInFacts.

(** * The claims *)



(** C2.  Throughout the scan the partial mapping is injective, with keys and
    values among the participant indices, and made of candidate pairs: this
    holds of [matched] after any number [k] of iterations (the loop run on the
    first [k] shuffled pairs).
    When the draw returns, every index is a key exactly once and a value
    exactly once, and the givers, like the receivers, of the returned list are
    the participants, each once. *)
Theorem draw_is_bijection {Rng : Type} {RS : RandomSource Rng}
  (participants : DataFrame) (rng : Rng) :
  (forall k,
     let m := greedy_scan (length participants)
                (firstn k (shuffled_pairs participants rng)) [] in
     NoDup (keys m) /\ NoDup (values m) /\
     incl (keys m) (seq 0 (length participants)) /\
     incl (values m) (seq 0 (length participants)) /\
     incl m (filter_valid_pairs participants)) /\
  (forall res, fst (secret_santa_draw participants rng) = Return res ->
     Permutation (keys (draw_matched participants rng)) (seq 0 (length participants)) /\
     Permutation (values (draw_matched participants rng)) (seq 0 (length participants)) /\
     Permutation (map fst res) participants /\
     Permutation (map snd res) participants).
Proof.
  split.
  - intros k m. pose proof (scan_prefix_partial_matching participants rng k) as Hm.
    fold m in Hm. pose proof Hm as (Hk & Hv & Hc).
    split; [ exact Hk | ]. split; [ exact Hv | ]. split; [ | split ].
    + apply partial_matching_keys_bound. exact Hm.
    + apply partial_matching_values_bound. exact Hm.
    + exact Hc.
  - intros res Hres. apply draw_Return in Hres. destruct Hres as [L Hrows].
    pose proof (draw_matched_partial_matching participants rng) as Hm.
    pose proof (complete_keys participants _ Hm L) as Pk.
    pose proof (complete_values participants _ Hm L) as Pv.
    split; [ exact Pk | ]. split; [ exact Pv | ]. split.
    + apply (rows_Permutation participants _ _ Pk).
      now apply Forall2_rows_givers.
    + apply (rows_Permutation participants _ _ Pv).
      now apply Forall2_rows_receivers.
Qed.

Lemma draw_is_bijection_witness :
  fst (secret_santa_draw family ([] : Tape)) =
    Return [(alice, dave); (bob, carol); (carol, alice); (dave, bob)] /\
  Permutation (keys (draw_matched family ([] : Tape))) [0; 1; 2; 3] /\
  Permutation (values (draw_matched family ([] : Tape))) [0; 1; 2; 3] /\
  Permutation [alice; bob; carol; dave] family /\
  Permutation [dave; carol; alice; bob] family.
Proof.
  split; [ reflexivity | ].
  exact (proj2 (draw_is_bijection family ([] : Tape))
           [(alice, dave); (bob, carol); (carol, alice); (dave, bob)] eq_refl).
Defined.

(** C3.  The draw raises the infeasible-draw exception exactly when, the
    shuffled pairs all scanned, fewer than N participants are matched;
    otherwise exactly N are matched and the draw returns a list.  A draw
    either raises or returns: nothing comes back with the exception, no
    exception with the list, and no other exception is raised. *)
Theorem draw_raises_iff_incomplete {Rng : Type} {RS : RandomSource Rng}
  (participants : DataFrame) (rng : Rng) :
  let scanned := full_scan (shuffled_pairs participants rng) [] in
  length scanned <= length participants /\
  (fst (secret_santa_draw participants rng) = Raise (Exception infeasible) <->
   length scanned < length participants) /\
  ((exists res, fst (secret_santa_draw participants rng) = Return res) <->
   length scanned = length participants).
Proof.
  intros scanned. subst scanned. rewrite <- draw_matched_full_scan.
  pose proof (partial_matching_length participants _
                (draw_matched_partial_matching participants rng)) as Hle.
  split; [ exact Hle | ]. split.
  - rewrite draw_Raise_infeasible. lia.
  - split.
    + intros [res Hres]. apply draw_Return in Hres. tauto.
    + apply draw_complete_Returns.
Qed.

Lemma draw_raises_iff_incomplete_witness :
  length (full_scan (shuffled_pairs trio unlucky) []) < length trio /\
  fst (secret_santa_draw trio unlucky) = Raise (Exception infeasible).
Proof.
  assert (H : length (full_scan (shuffled_pairs trio unlucky) []) < length trio)
    by (vm_compute; lia).
  split; [ exact H | ].
  exact (proj2 (proj1 (proj2 (draw_raises_iff_incomplete trio unlucky))) H).
Defined.


(** C5.  One iteration commits (giver, receiver) exactly when the giver is not
    yet a key of [matched] and the receiver not yet a value, and changes
    nothing otherwise; what is committed stays (the scan only appends).  Once
    an iteration has brought [matched] to size N the pairs that follow are not
    looked at, and for the shuffled candidate pairs of a group the loop with
    the [break] ends with the same [matched] as the loop without it. *)
Theorem greedy_scan_first_fit :
  (forall matched giver receiver,
     (commit matched (giver, receiver) = matched ++ [(giver, receiver)] <->
      ~ In giver (keys matched) /\ ~ In receiver (values matched)) /\
     (commit matched (giver, receiver) = matched <->
      In giver (keys matched) \/ In receiver (values matched))) /\
  (forall n pairs matched,
     exists added, greedy_scan n pairs matched = matched ++ added) /\
  (forall n first scanned later matched,
     length (greedy_scan n (first :: scanned) matched) = n ->
     greedy_scan n ((first :: scanned) ++ later) matched =
     greedy_scan n (first :: scanned) matched) /\
  (forall (Rng : Type) (RS : RandomSource Rng) participants (rng : Rng),
     draw_matched participants rng = full_scan (shuffled_pairs participants rng) []).
Proof.
  split; [ | split; [ | split ] ].
  - intros matched giver receiver.
    rewrite <- key_in_spec, <- value_in_spec.
    destruct (commit_cases matched giver receiver) as [(K & V & E) | [H E]]; rewrite E.
    + rewrite K, V. split; split.
      * intros _. split; discriminate.
      * reflexivity.
      * intros H. exfalso. revert H. apply snoc_neq.
      * intros [H | H]; discriminate.
    + split; split.
      * intros H'. symmetry in H'. exfalso. revert H'. apply snoc_neq.
      * intros [K V]. destruct H; contradiction.
      * intros _. exact H.
      * reflexivity.
  - intros n pairs matched. apply greedy_scan_extends.
  - intros n first scanned later matched. apply greedy_scan_stops.
  - intros Rng RS participants rng. apply draw_matched_full_scan.
Qed.

Lemma greedy_scan_first_fit_witness :
  length (greedy_scan 2 [(0, 1); (1, 0)] []) = 2 /\
  greedy_scan 2 ([(0, 1); (1, 0)] ++ [(0, 2); (2, 0)]) [] =
  greedy_scan 2 [(0, 1); (1, 0)] [].
Proof.
  split; [ reflexivity | ].
  exact (proj1 (proj2 (proj2 greedy_scan_first_fit)) 2 (0, 1) [(1, 0)] [(0, 2); (2, 0)] []
           eq_refl).
Defined.

(** C6.  The greedy scan is not a complete matching algorithm: the three
    participants of [trio] can be matched in a circle, 0 to 1, 1 to 2, 2 to 0,
    yet under the tape [unlucky] the shuffle puts (0, 1) and (1, 0) first, the
    scan commits both, nobody is left for participant 2 and the draw raises. *)
Theorem greedy_scan_not_complete :
  exists (participants : DataFrame) (rng : Tape) (m : dict),
    complete_matching participants m /\
    Permutation (filter_valid_pairs participants) (shuffled_pairs participants rng) /\
    draw_matched participants rng = [(0, 1); (1, 0)] /\
    fst (secret_santa_draw participants rng) = Raise (Exception infeasible).
Proof.
  exists trio, unlucky, [(0, 1); (1, 2); (2, 0)].
  split; [ | split; [ apply shuffled_pairs_Permutation | split; reflexivity ] ].
  split; [ reflexivity | ]. split.
  - simpl. symmetry. apply (Permutation_cons_app [1; 2] [] 0). reflexivity.
  - intros i j [E | [E | [E | []]]]; inversion E; subst; simpl;
      eexists; eexists; (split; [ reflexivity | ]); (split; [ reflexivity | ]);
      split; discriminate.
Qed.



(** C8 (amended).  How two participants with the unset value of the loader's
    default fill compare depends on what that value reads as at line 36.
    Where it reads [None], as under pandas 2, their categories compare equal
    and neither (i, j) nor (j, i) is a candidate pair: a frame loaded from a
    workbook without the column has no candidate pair at all.  Where it reads
    NaN, as under pandas 3, their categories compare different and the two
    are candidates for each other, in both directions, exactly when their
    identities differ. *)
Theorem unset_categories_by_reading :
  (forall participants i j p q,
     nth_error participants i = Some p -> nth_error participants j = Some q ->
     Categorie p = None -> Categorie q = None ->
     (~ In (i, j) (filter_valid_pairs_as ReadsNone participants) /\
      ~ In (j, i) (filter_valid_pairs_as ReadsNone participants)) /\
     (In (i, j) (filter_valid_pairs_as ReadsNaN participants) <->
      identity p <> identity q) /\
     (In (j, i) (filter_valid_pairs_as ReadsNaN participants) <->
      identity p <> identity q)) /\
  (forall rows,
     Forall (fun p => Categorie p = None) (load_participants (WithoutCategorie rows)) /\
     missing_category Pandas2 (WithoutCategorie rows) = ReadsNone /\
     missing_category Pandas3 (WithoutCategorie rows) = ReadsNaN /\
     filter_valid_pairs_as (missing_category Pandas2 (WithoutCategorie rows))
       (load_participants (WithoutCategorie rows)) = []).
Proof.
  assert (Hnone : forall participants i j p q,
            nth_error participants i = Some p -> nth_error participants j = Some q ->
            Categorie p = Categorie q ->
            ~ In (i, j) (filter_valid_pairs_as ReadsNone participants)).
  { intros participants i j p q Hi Hj E Hin.
    apply In_filter_valid_pairs_as in Hin. destruct Hin as (g & r & Hg & Hr & V).
    assert (g = p) by congruence. assert (r = q) by congruence. subst g r.
    rewrite valid_pair_as_None in V by exact E. discriminate. }
  assert (Hnan : forall participants i j p q,
            nth_error participants i = Some p -> nth_error participants j = Some q ->
            Categorie p = None ->
            (In (i, j) (filter_valid_pairs_as ReadsNaN participants) <->
             identity p <> identity q)).
  { intros participants i j p q Hi Hj Hp. rewrite In_filter_valid_pairs_as. split.
    - intros (g & r & Hg & Hr & V).
      assert (g = p) by congruence. assert (r = q) by congruence. subst g r.
      apply valid_pair_as_NaN in V; auto.
    - intros Hid. exists p, q. split; [ exact Hi | ]. split; [ exact Hj | ].
      apply valid_pair_as_NaN; auto. }
  split.
  - intros participants i j p q Hi Hj Hp Hq. split; [ split | split ].
    + apply (Hnone participants i j p q Hi Hj). congruence.
    + apply (Hnone participants j i q p Hj Hi). congruence.
    + apply (Hnan participants i j p q Hi Hj Hp).
    + rewrite (Hnan participants j i q p Hj Hi Hq). split; intros H E; apply H; congruence.
  - intros rows. split; [ | split; [ reflexivity | split; [ reflexivity | ] ] ].
    + apply Forall_forall. apply loaded_without_categories.
    + cbn [missing_category]. rewrite filter_valid_pairs_as_ReadsNone.
      apply one_category_no_candidate. intros p q Hp Hq.
      rewrite (loaded_without_categories rows p Hp), (loaded_without_categories rows q Hq).
      reflexivity.
Qed.

Lemma unset_categories_by_reading_witness :
  nth_error (load_participants plain_workbook) 0
    = Some (mkParticipant "Martin" "Alice" "alice@example.org" None) /\
  nth_error (load_participants plain_workbook) 1
    = Some (mkParticipant "Durand" "Dave" "dave@example.org" None) /\
  (~ In (0, 1) (filter_valid_pairs_as ReadsNone (load_participants plain_workbook)) /\
   ~ In (1, 0) (filter_valid_pairs_as ReadsNone (load_participants plain_workbook))) /\
  (In (0, 1) (filter_valid_pairs_as ReadsNaN (load_participants plain_workbook)) <->
   identity (mkParticipant "Martin" "Alice" "alice@example.org" None)
   <> identity (mkParticipant "Durand" "Dave" "dave@example.org" None)).
Proof.
  split; [ reflexivity | ]. split; [ reflexivity | ].
  destruct (proj1 unset_categories_by_reading
              (load_participants plain_workbook) 0 1 _ _ eq_refl eq_refl eq_refl eq_refl)
    as (Hnone & Hnan & _).
  split; [ exact Hnone | exact Hnan ].
Defined.

(** C8 as it was stated fails: under pandas 3 the two participants of a
    workbook without the column, both with the loader's fill, are candidates
    for each other. *)
Lemma loader_fill_paired_under_pandas3 :
  Forall (fun p => Categorie p = None) (load_participants plain_workbook) /\
  filter_valid_pairs_as (missing_category Pandas3 plain_workbook)
    (load_participants plain_workbook) = [(0, 1); (1, 0)].
Proof.
  split; [ | reflexivity ].
  repeat constructor.
Qed.

(** C9.  A call of the draw reads the caller's frame and the generator and
    nothing else, and writes only to the two objects it creates.  On the rows
    [rows] and from the generator state [rng] it has one outcome, list or
    exception, and leaves one generator state, whatever else the heap holds
    and wherever the frame lies in it; every object that existed before the
    call, the frame among them, is afterwards what it was.  So a second call,
    on the heap the first left and from the same generator state, has the
    same outcome. *)
Theorem draw_deterministic {Rng : Type} {RS : RandomSource Rng}
  (m : missing) (rows : DataFrame) (rng : Rng) :
  exists outcome rng',
    (outcome, rng') = secret_santa_draw_as m rows rng /\
    forall h participants,
      nth_error h participants = Some (FrameObject rows) ->
      exists h',
        secret_santa_draw_in m h participants rng = Some (outcome, h', rng') /\
        (forall a, a < length h -> nth_error h' a = nth_error h a) /\
        nth_error h' participants = Some (FrameObject rows) /\
        exists h'',
          secret_santa_draw_in m h' participants rng = Some (outcome, h'', rng').
Proof.
  exists (fst (secret_santa_draw_as m rows rng)), (snd (secret_santa_draw_as m rows rng)).
  split; [ now destruct (secret_santa_draw_as m rows rng) | ].
  intros h participants Hp.
  set (h' := h ++ [ListObject (shuffled_pairs_as m rows rng)]
               ++ [DictObject (draw_matched_as m rows rng)]).
  assert (Hold : forall a, a < length h -> nth_error h' a = nth_error h a).
  { intros a Ha. unfold h'. now rewrite nth_error_app1. }
  assert (Hp' : nth_error h' participants = Some (FrameObject rows)).
  { rewrite Hold; [ exact Hp | ]. apply nth_error_Some. congruence. }
  exists h'. split; [ apply (secret_santa_draw_in_spec m h participants rows rng Hp) | ].
  split; [ exact Hold | ]. split; [ exact Hp' | ].
  eexists. apply (secret_santa_draw_in_spec m h' participants rows rng Hp').
Qed.

Lemma draw_deterministic_witness :
  nth_error [DictObject [(7, 7)]; FrameObject family] 1 = Some (FrameObject family) /\
  exists h',
    secret_santa_draw_in ReadsNaN [DictObject [(7, 7)]; FrameObject family] 1 ([] : Tape)
    = Some (Return [(alice, dave); (bob, carol); (carol, alice); (dave, bob)], h', []) /\
    nth_error h' 0 = Some (DictObject [(7, 7)]) /\
    nth_error h' 1 = Some (FrameObject family).
Proof.
  split; [ reflexivity | ].
  destruct (draw_deterministic ReadsNaN family ([] : Tape)) as (outcome & rng' & E & H).
  vm_compute in E. injection E as -> ->.
  destruct (H [DictObject [(7, 7)]; FrameObject family] 1 eq_refl)
    as (h' & Hrun & Hold & Hframe & _).
  exists h'. split; [ exact Hrun | ]. split; [ | exact Hframe ].
  apply (Hold 0). simpl. lia.
Defined.

(** C10.  For the empty frame the draw returns the empty list, whatever the
    shuffle: nothing is matched, which is all of zero participants, so line 60
    does not raise. *)
Theorem empty_draw_returns {Rng : Type} {RS : RandomSource Rng} (rng : Rng) :
  fst (secret_santa_draw [] rng) = Return [] /\
  draw_matched [] rng = [].
Proof.
  assert (M : draw_matched [] rng = []).
  { unfold draw_matched.
    pose proof (shuffled_pairs_Permutation [] rng) as HP.
    change (filter_valid_pairs []) with (@nil (nat * nat)) in HP.
    apply Permutation_nil in HP. rewrite HP. reflexivity. }
  split; [ | exact M ].
  rewrite secret_santa_draw_unfold, M. reflexivity.
Qed.

(** * Further properties of the draw *)

(** ** The candidate pairs *)

Lemma valid_pair_sym (giver receiver : Participant) :
  valid_pair giver receiver = valid_pair receiver giver.
Proof.
  destruct (valid_pair receiver giver) eqn:E.
  - apply valid_pair_spec in E. apply valid_pair_spec.
    destruct E as [Hi Hc]. split; intros H; [ apply Hi | apply Hc ]; now symmetry.
  - apply not_true_is_false. intros H. apply valid_pair_spec in H.
    apply not_true_iff_false in E. apply E. apply valid_pair_spec.
    destruct H as [Hi Hc]. split; intros H; [ apply Hi | apply Hc ]; now symmetry.
Qed.

(** X1.  The exclusion is mutual: (i, j) is a candidate pair exactly when
    (j, i) is. *)
Theorem filter_valid_pairs_symmetric (participants : DataFrame) (i j : nat) :
  In (i, j) (filter_valid_pairs participants) <->
  In (j, i) (filter_valid_pairs participants).
Proof.
  rewrite !In_filter_valid_pairs. split; intros (g & r & Hg & Hr & V);
    exists r, g; rewrite valid_pair_sym; auto.
Qed.

Lemma NoDup_row_pairs (i : nat) (giver : Participant) (rows : list (nat * Participant)) :
  NoDup (map fst rows) ->
  NoDup (flat_map (fun '(j, receiver) =>
           if valid_pair giver receiver then [(i, j)] else []) rows).
Proof.
  induction rows as [ | [j r] rest IH ]; simpl; intros H; [ constructor | ].
  inversion H as [ | ? ? Hj Hrest ]; subst.
  destruct (valid_pair giver r); simpl; [ | now apply IH ].
  constructor; [ | now apply IH ].
  intros Hin. apply in_flat_map in Hin. destruct Hin as [[j' r'] [Hin' Hx]].
  destruct (valid_pair giver r'); [ | contradiction ].
  destruct Hx as [E | []]. inversion E; subst.
  apply Hj. apply in_map_iff. now exists (j, r').
Qed.

Lemma NoDup_nested_pairs (outer inner : list (nat * Participant)) :
  NoDup (map fst outer) -> NoDup (map fst inner) ->
  NoDup (flat_map (fun '(i, giver) =>
           flat_map (fun '(j, receiver) =>
             if valid_pair giver receiver then [(i, j)] else []) inner) outer).
Proof.
  intros Ho Hi. induction outer as [ | [i g] rest IH ]; simpl; [ constructor | ].
  inversion Ho as [ | ? ? Hn Hrest ]; subst.
  apply NoDup_app; [ now apply NoDup_row_pairs | now apply IH | ].
  intros [a b] Ha Hb.
  apply in_flat_map in Ha. destruct Ha as [[j r] [_ Ha]].
  destruct (valid_pair g r); [ | contradiction ].
  destruct Ha as [E | []]. inversion E; subst.
  apply in_flat_map in Hb. destruct Hb as [[i' g'] [Hin Hb]].
  apply in_flat_map in Hb. destruct Hb as [[j' r'] [_ Hb]].
  destruct (valid_pair g' r'); [ | contradiction ].
  destruct Hb as [E' | []]. inversion E'; subst.
  apply Hn. apply in_map_iff. now exists (a, g').
Qed.

Lemma iterrows_labels (participants : DataFrame) :
  map fst (iterrows participants) = seq 0 (length participants).
Proof.
  unfold iterrows. generalize 0.
  induction participants as [ | p ps IH ]; intros s; simpl; [ reflexivity | ].
  now rewrite IH.
Qed.

(** X2.  No candidate pair is listed twice: the shuffle permutes distinct
    pairs. *)
Theorem filter_valid_pairs_NoDup (participants : DataFrame) :
  NoDup (filter_valid_pairs participants).
Proof.
  unfold filter_valid_pairs.
  apply NoDup_nested_pairs; rewrite iterrows_labels; apply seq_NoDup.
Qed.

(** ** What the scan leaves behind *)

Lemma commit_covers (m : dict) (giver receiver : nat) :
  In giver (keys (commit m (giver, receiver))) \/
  In receiver (values (commit m (giver, receiver))).
Proof.
  destruct (commit_cases m giver receiver) as [(_ & _ & E) | [[K | V] E]]; rewrite E.
  - left. rewrite keys_app. apply in_or_app. right. now left.
  - left. now apply key_in_spec.
  - right. now apply value_in_spec.
Qed.

Lemma full_scan_extends (pairs : list (nat * nat)) (m : dict) :
  exists added, full_scan pairs m = m ++ added.
Proof.
  unfold full_scan. revert m. induction pairs as [ | p rest IH ]; intros m; simpl.
  - exists []. now rewrite app_nil_r.
  - destruct (commit_extends m p) as [a Ea]. destruct (IH (commit m p)) as [b Eb].
    rewrite Eb, Ea. exists (a ++ b). now rewrite app_assoc.
Qed.

Lemma full_scan_covers (pairs : list (nat * nat)) (m : dict) (giver receiver : nat) :
  In (giver, receiver) pairs ->
  In giver (keys (full_scan pairs m)) \/ In receiver (values (full_scan pairs m)).
Proof.
  revert m. induction pairs as [ | p rest IH ]; intros m; simpl; [ tauto | ].
  intros [E | Hin].
  - subst p. change (full_scan ((giver, receiver) :: rest) m)
      with (full_scan rest (commit m (giver, receiver))).
    destruct (full_scan_extends rest (commit m (giver, receiver))) as [added E].
    rewrite E, keys_app, values_app.
    destruct (commit_covers m giver receiver); [ left | right ];
      apply in_or_app; now left.
  - apply (IH (commit m p) Hin).
Qed.

(** X3.  The matching the scan ends with cannot be extended: of every
    candidate pair, the giver already gives or the receiver already receives.
    A draw that raises has left no candidate pair with both ends free. *)
Theorem draw_matched_maximal {Rng : Type} {RS : RandomSource Rng}
  (participants : DataFrame) (rng : Rng) (i j : nat) :
  In (i, j) (filter_valid_pairs participants) ->
  In i (keys (draw_matched participants rng)) \/
  In j (values (draw_matched participants rng)).
Proof.
  intros H. rewrite draw_matched_full_scan. apply full_scan_covers.
  apply (Permutation_in _ (shuffled_pairs_Permutation participants rng) H).
Qed.

Lemma draw_matched_maximal_witness :
  In (2, 0) (filter_valid_pairs trio) /\
  (In 2 (keys (draw_matched trio unlucky)) \/ In 0 (values (draw_matched trio unlucky))).
Proof.
  assert (H : In (2, 0) (filter_valid_pairs trio)) by (vm_compute; tauto).
  split; [ exact H | ].
  exact (draw_matched_maximal trio unlucky 2 0 H).
Defined.

Lemma subsequence_refl {A : Type} (l : list A) : subsequence l l.
Proof. induction l; constructor; assumption. Qed.

Lemma subsequence_nil_l {A : Type} (l : list A) : subsequence [] l.
Proof. induction l; constructor; assumption. Qed.

Lemma greedy_scan_subsequence (n : nat) (pairs : list (nat * nat)) (m : dict) :
  exists added, greedy_scan n pairs m = m ++ added /\ subsequence added pairs.
Proof.
  revert m. induction pairs as [ | [g r] rest IH ]; intros m.
  - exists []. split; [ simpl; now rewrite app_nil_r | constructor ].
  - cbn [greedy_scan].
    destruct (commit_cases m g r) as [(_ & _ & E) | [_ E]]; rewrite E.
    + destruct (Nat.eqb (length (m ++ [(g, r)])) n).
      * exists [(g, r)]. split; [ reflexivity | ].
        constructor. apply subsequence_nil_l.
      * destruct (IH (m ++ [(g, r)])) as (b & Eb & Sb).
        exists ((g, r) :: b). split; [ | now constructor ].
        rewrite Eb, <- app_assoc. reflexivity.
    + destruct (Nat.eqb (length m) n).
      * exists []. split; [ now rewrite app_nil_r | apply subsequence_nil_l ].
      * destruct (IH m) as (b & Eb & Sb). exists b. split; [ exact Eb | now constructor ].
Qed.

(** X4.  The scan keeps the order of the shuffle: [matched], and with it the
    returned list, is the shuffled list with pairs left out, and it starts
    with the first shuffled pair, which is always committed. *)
Theorem draw_matched_follows_shuffle {Rng : Type} {RS : RandomSource Rng}
  (participants : DataFrame) (rng : Rng) :
  subsequence (draw_matched participants rng) (shuffled_pairs participants rng) /\
  (forall first rest, shuffled_pairs participants rng = first :: rest ->
     exists others, draw_matched participants rng = first :: others) /\
  (forall res, fst (secret_santa_draw participants rng) = Return res ->
     Forall2 (rows_of participants) (draw_matched participants rng) res).
Proof.
  split; [ | split ].
  - unfold draw_matched.
    destruct (greedy_scan_subsequence (length participants)
                (shuffled_pairs participants rng) []) as (a & E & S).
    rewrite E. exact S.
  - intros [g r] rest E. unfold draw_matched. rewrite E. cbn [greedy_scan].
    change (commit [] (g, r)) with [(g, r)].
    destruct (Nat.eqb (length [(g, r)]) (length participants)).
    + now exists [].
    + destruct (greedy_scan_extends (length participants) rest [(g, r)]) as [a Ea].
      rewrite Ea. now exists a.
  - intros res H. now apply draw_Return in H.
Qed.

Lemma draw_matched_follows_shuffle_witness :
  shuffled_pairs trio unlucky = (0, 1) :: [(1, 0); (0, 2); (1, 2); (2, 0); (2, 1)] /\
  exists others, draw_matched trio unlucky = (0, 1) :: others.
Proof.
  split; [ reflexivity | ].
  exact (proj1 (proj2 (draw_matched_follows_shuffle trio unlucky)) (0, 1) _ eq_refl).
Defined.

(** ** Groups the draw cannot serve *)

Lemma draw_raises_or_returns {Rng : Type} {RS : RandomSource Rng}
  (participants : DataFrame) (rng : Rng) :
  fst (secret_santa_draw participants rng) = Raise (Exception infeasible) \/
  exists res, fst (secret_santa_draw participants rng) = Return res.
Proof.
  destruct (Nat.eq_dec (length (draw_matched participants rng)) (length participants))
    as [E | E].
  - right. now apply draw_complete_Returns.
  - left. now apply draw_Raise_infeasible.
Qed.

Lemma draw_Return_valid {Rng : Type} {RS : RandomSource Rng}
  (participants : DataFrame) (rng : Rng) (res : list (Participant * Participant)) :
  fst (secret_santa_draw participants rng) = Return res ->
  Forall (fun gr => identity (fst gr) <> identity (snd gr) /\
                    Categorie (fst gr) <> Categorie (snd gr)) res.
Proof.
  intros Hres. apply draw_Return in Hres. destruct Hres as [_ Hrows].
  apply Forall_forall. intros [g r] Hin.
  destruct (Forall2_rows_In _ _ _ _ _ Hrows Hin) as (i & j & Hij & Hg & Hr).
  destruct (draw_matched_partial_matching participants rng) as (_ & _ & Hcand).
  apply Hcand, In_filter_valid_pairs in Hij.
  destruct Hij as (g' & r' & Hg' & Hr' & V). unfold row_of in Hg, Hr.
  assert (g' = g) by congruence. assert (r' = r) by congruence. subst g' r'.
  now apply valid_pair_spec in V.
Qed.

Lemma draw_Return_Permutation {Rng : Type} {RS : RandomSource Rng}
  (participants : DataFrame) (rng : Rng) (res : list (Participant * Participant)) :
  fst (secret_santa_draw participants rng) = Return res ->
  Permutation (map fst res) participants /\ Permutation (map snd res) participants.
Proof.
  intros Hres. apply draw_Return in Hres. destruct Hres as [L Hrows].
  pose proof (draw_matched_partial_matching participants rng) as Hm.
  split.
  - apply (rows_Permutation participants _ _ (complete_keys participants _ Hm L)).
    now apply Forall2_rows_givers.
  - apply (rows_Permutation participants _ _ (complete_values participants _ Hm L)).
    now apply Forall2_rows_receivers.
Qed.

Lemma givers_and_receivers_of_a_category (c : option string)
  (res : list (Participant * Participant)) :
  Forall (fun gr => Categorie (fst gr) <> Categorie (snd gr)) res ->
  category_size c (map fst res) + category_size c (map snd res) <= length res.
Proof.
  unfold category_size. induction 1 as [ | [g r] rest Hgr _ IH ]; simpl; [ lia | ].
  simpl in Hgr.
  destruct (cat_dec (Categorie g) c), (cat_dec (Categorie r) c); try lia.
  congruence.
Qed.

Lemma category_size_Permutation (c : option string) (l l' : DataFrame) :
  Permutation l l' -> category_size c l = category_size c l'.
Proof.
  intros H. unfold category_size.
  apply Permutation_count_occ. now apply Permutation_map.
Qed.



(** X6.  Whether a workbook without the column 'Catégorie' can be drawn
    depends on the pandas that reads it.  Under pandas 2 the fill of line 19
    reads [None], all participants share that category, and the draw raises
    for every shuffle as soon as there is one row (with no row it returns the
    empty list).  Under pandas 3 the fill reads NaN and excludes nobody: the
    candidate pairs are all the pairs of rows of different identities. *)
Theorem draw_without_categories {Rng : Type} {RS : RandomSource Rng}
  (rows : list (string * string * string)) (rng : Rng) :
  fst (secret_santa_draw_as (missing_category Pandas2 (WithoutCategorie rows))
         (load_participants (WithoutCategorie rows)) rng) =
    match rows with
    | [] => Return []
    | _ :: _ => Raise (Exception infeasible)
    end /\
  (forall i j,
     In (i, j) (filter_valid_pairs_as (missing_category Pandas3 (WithoutCategorie rows))
                  (load_participants (WithoutCategorie rows))) <->
     exists p q,
       nth_error (load_participants (WithoutCategorie rows)) i = Some p /\
       nth_error (load_participants (WithoutCategorie rows)) j = Some q /\
       identity p <> identity q).
Proof.
  split.
  - cbn [missing_category]. rewrite secret_santa_draw_as_ReadsNone.
    assert (M : draw_matched (load_participants (WithoutCategorie rows)) rng = []).
    { apply no_candidate_draw, one_category_no_candidate. intros p q Hp Hq.
      rewrite (loaded_without_categories rows p Hp), (loaded_without_categories rows q Hq).
      reflexivity. }
    destruct rows as [ | row rest ].
    + rewrite secret_santa_draw_unfold, M. reflexivity.
    + apply draw_Raise_infeasible. rewrite M. simpl. discriminate.
  - intros i j. cbn [missing_category]. rewrite In_filter_valid_pairs_as.
    split; intros (p & q & Hp & Hq & H); exists p, q;
      (split; [ exact Hp | ]); (split; [ exact Hq | ]);
      apply valid_pair_as_NaN; auto; left;
      apply (loaded_without_categories rows); eapply nth_error_In; exact Hp.
Qed.

(** X16.  On a frame where every participant has a category the reading of
    a missing one plays no part: under either pandas the candidate pairs and
    the draw are those of [filter_valid_pairs] and [secret_santa_draw].  So it
    is for a workbook whose column 'Catégorie' has no blank cell. *)
Theorem draw_of_categorised_frame {Rng : Type} {RS : RandomSource Rng}
  (m : missing) (participants : DataFrame) (rng : Rng) :
  Forall (fun p => Categorie p <> None) participants ->
  filter_valid_pairs_as m participants = filter_valid_pairs participants /\
  secret_santa_draw_as m participants rng = secret_santa_draw participants rng /\
  (forall rows version,
     participants = load_participants (WithCategorie rows) ->
     secret_santa_draw_as (missing_category version (WithCategorie rows))
       (load_participants (WithCategorie rows)) rng
     = secret_santa_draw (load_participants (WithCategorie rows)) rng).
Proof.
  intros H. split; [ now apply filter_valid_pairs_as_categorised | ].
  split; [ now apply secret_santa_draw_as_categorised | ].
  intros rows version E. apply secret_santa_draw_as_categorised. now rewrite <- E.
Qed.

Lemma draw_of_categorised_frame_witness :
  Forall (fun p => Categorie p <> None) family /\
  filter_valid_pairs_as ReadsNaN family = filter_valid_pairs family /\
  secret_santa_draw_as ReadsNaN family ([3; 1] : Tape) = secret_santa_draw family [3; 1].
Proof.
  assert (H : Forall (fun p => Categorie p <> None) family)
    by (repeat constructor; discriminate).
  split; [ exact H | ].
  destruct (draw_of_categorised_frame ReadsNaN family ([3; 1] : Tape) H) as (Hf & Hd & _).
  split; [ exact Hf | exact Hd ].
Defined.

(** * Saving the results *)

(** ** The time stamp *)

Lemma append_inj (a a' b b' : string) :
  String.length a = String.length a' ->
  String.append a b = String.append a' b' -> a = a' /\ b = b'.
Proof.
  revert a'. induction a as [ | c a IH ]; intros [ | c' a' ]; simpl;
    try discriminate; intros L E.
  - auto.
  - injection E as Ec Ea. injection L as L.
    destruct (IH a' L Ea) as [-> ->]. subst. auto.
Qed.

Lemma two_digits_length (n : nat) : String.length (two_digits n) = 2.
Proof. reflexivity. Qed.

Lemma four_digits_length (n : nat) : String.length (four_digits n) = 4.
Proof. reflexivity. Qed.

Lemma two_digits_inj (n m : nat) :
  n < 100 -> m < 100 -> two_digits n = two_digits m -> n = m.
Proof.
  intros Hn Hm E.
  assert (D : two_digits_distinct 100 = true) by (vm_compute; reflexivity).
  unfold two_digits_distinct in D. rewrite forallb_forall in D.
  specialize (D n). rewrite forallb_forall in D.
  assert (I : implb (String.eqb (two_digits n) (two_digits m)) (Nat.eqb n m) = true).
  { apply D; apply in_seq; lia. }
  rewrite E, String.eqb_refl in I. simpl in I. now apply Nat.eqb_eq.
Qed.

Lemma four_digits_inj (n m : nat) :
  n < 100 * 100 -> m < 100 * 100 -> four_digits n = four_digits m -> n = m.
Proof.
  intros Hn Hm E. unfold four_digits in E.
  apply append_inj in E; [ | reflexivity ]. destruct E as [Eh El].
  apply two_digits_inj in Eh;
    [ | apply Nat.Div0.div_lt_upper_bound; lia | apply Nat.Div0.div_lt_upper_bound; lia ].
  apply two_digits_inj in El; [ | apply Nat.mod_upper_bound; lia .. ].
  rewrite (Nat.div_mod_eq n 100), (Nat.div_mod_eq m 100). congruence.
Qed.

Lemma strftime_pieces (t : datetime) :
  strftime t =
  String.append (four_digits (year t))
    (String.append (two_digits (month t))
      (String.append (two_digits (day t))
        (String.append "_"
          (String.append (two_digits (hour t))
            (String.append (two_digits (minute t)) (two_digits (second t))))))).
Proof. reflexivity. Qed.

Lemma strftime_length (t : datetime) : String.length (strftime t) = 15.
Proof. reflexivity. Qed.

Lemma strftime_inj (t1 t2 : datetime) :
  valid_datetime t1 -> valid_datetime t2 -> strftime t1 = strftime t2 -> t1 = t2.
Proof.
  intros (Hy1 & Hm1 & Hd1 & Hh1 & Hmi1 & Hs1) (Hy2 & Hm2 & Hd2 & Hh2 & Hmi2 & Hs2) E.
  rewrite !strftime_pieces in E.
  apply append_inj in E; [ | reflexivity ]. destruct E as [Ey E].
  apply append_inj in E; [ | reflexivity ]. destruct E as [Em E].
  apply append_inj in E; [ | reflexivity ]. destruct E as [Ed E].
  apply append_inj in E; [ | reflexivity ]. destruct E as [_ E].
  apply append_inj in E; [ | reflexivity ]. destruct E as [Eh E].
  apply append_inj in E; [ | reflexivity ]. destruct E as [Emi Es].
  apply four_digits_inj in Ey; [ | lia | lia ].
  apply two_digits_inj in Em; [ | lia | lia ].
  apply two_digits_inj in Ed; [ | lia | lia ].
  apply two_digits_inj in Eh; [ | lia | lia ].
  apply two_digits_inj in Emi; [ | lia | lia ].
  apply two_digits_inj in Es; [ | lia | lia ].
  destruct t1, t2; simpl in *; congruence.
Qed.

Lemma output_file_inj (r1 r2 : list (Participant * Participant))
  (t1 t2 : datetime) (d1 d2 : Disk) :
  valid_datetime t1 -> valid_datetime t2 ->
  fst (save_results_to_excel r1 t1 d1) = fst (save_results_to_excel r2 t2 d2) ->
  t1 = t2.
Proof.
  intros V1 V2 E. apply (strftime_inj t1 t2 V1 V2).
  unfold save_results_to_excel in E. cbn [fst] in E.
  change (String.append "secret_santa_results_" (String.append (strftime t1) ".xlsx") =
          String.append "secret_santa_results_" (String.append (strftime t2) ".xlsx")) in E.
  apply append_inj in E; [ | reflexivity ]. destruct E as [_ E].
  apply append_inj in E; [ tauto | ]. now rewrite !strftime_length.
Qed.

(** ** The sheet *)

Lemma saved_rows (results : list (Participant * Participant)) :
  sheet_rows (frame_of_records (output_data results)) =
  map (fun gr => [NOM (fst gr); Prenom (fst gr); NOM (snd gr); Prenom (snd gr)]) results.
Proof.
  unfold frame_of_records, output_data. cbn [sheet_rows]. rewrite map_map.
  apply map_ext. reflexivity.
Qed.

Lemma saved_file (results : list (Participant * Participant)) (t : datetime) (d : Disk) :
  snd (save_results_to_excel results t d) (fst (save_results_to_excel results t d)) =
  Some (frame_of_records (output_data results)).
Proof.
  unfold save_results_to_excel, to_excel. cbn [fst snd].
  now rewrite String.eqb_refl.
Qed.

(** X7.  Saved after a draw that returned, the file holds one row per
    participant; its donor columns name every participant exactly once, so do
    its recipient columns, and no row names the same person twice.  The
    header has the four columns, unless the group is empty: then the sheet
    has no column at all. *)
Theorem saved_sheet_of_a_draw {Rng : Type} {RS : RandomSource Rng}
  (participants : DataFrame) (rng : Rng) (res : list (Participant * Participant))
  (t : datetime) (d : Disk) :
  fst (secret_santa_draw participants rng) = Return res ->
  exists sheet,
    snd (save_results_to_excel res t d) (fst (save_results_to_excel res t d)) = Some sheet /\
    sheet_columns sheet =
      match participants with
      | [] => []
      | _ :: _ => ["NOM Donneur"; "Prénom Donneur"; "NOM Destinataire"; "Prénom Destinataire"]
      end /\
    length (sheet_rows sheet) = length participants /\
    Permutation (map donor (sheet_rows sheet)) (map identity participants) /\
    Permutation (map recipient (sheet_rows sheet)) (map identity participants) /\
    Forall (fun row => donor row <> recipient row) (sheet_rows sheet).
Proof.
  intros H. exists (frame_of_records (output_data res)).
  destruct (draw_Return_Permutation participants rng res H) as [Pg Pr].
  pose proof (draw_Return_valid participants rng res H) as Hv.
  split; [ apply saved_file | ]. rewrite saved_rows.
  split; [ | split; [ | split; [ | split ] ] ].
  - pose proof (Permutation_length Pg) as L. rewrite length_map in L.
    destruct res, participants; try discriminate; reflexivity.
  - rewrite length_map. apply Permutation_length in Pg. now rewrite length_map in Pg.
  - rewrite map_map. apply (Permutation_map identity) in Pg.
    rewrite map_map in Pg. exact Pg.
  - rewrite map_map. apply (Permutation_map identity) in Pr.
    rewrite map_map in Pr. exact Pr.
  - apply Forall_map. revert Hv. apply Forall_impl. intros [g r] [Hi _]. exact Hi.
Qed.

Lemma saved_sheet_of_a_draw_witness :
  fst (secret_santa_draw family ([] : Tape)) =
    Return [(alice, dave); (bob, carol); (carol, alice); (dave, bob)] /\
  exists sheet,
    snd (save_results_to_excel [(alice, dave); (bob, carol); (carol, alice); (dave, bob)]
           (mkDatetime 2024 12 5 9 3 47) (fun _ => None))
        "secret_santa_results_20241205_090347.xlsx" = Some sheet /\
    sheet_columns sheet =
      ["NOM Donneur"; "Prénom Donneur"; "NOM Destinataire"; "Prénom Destinataire"] /\
    length (sheet_rows sheet) = 4 /\
    Permutation (map donor (sheet_rows sheet)) (map identity family) /\
    Permutation (map recipient (sheet_rows sheet)) (map identity family) /\
    Forall (fun row => donor row <> recipient row) (sheet_rows sheet).
Proof.
  split; [ reflexivity | ].
  exact (saved_sheet_of_a_draw family ([] : Tape) _
           (mkDatetime 2024 12 5 9 3 47) (fun _ => None) eq_refl).
Defined.

(** X8.  The name of the file is the time of the save, to the second, and the
    time can be read back from it.  Of two saves in a row the second leaves
    the first file alone when their times differ and replaces it when they are
    the same; no other file is touched. *)
Theorem saves_in_a_row (r1 r2 : list (Participant * Participant))
  (t1 t2 : datetime) (d : Disk) :
  valid_datetime t1 -> valid_datetime t2 ->
  let f1 := fst (save_results_to_excel r1 t1 d) in
  let d1 := snd (save_results_to_excel r1 t1 d) in
  let f2 := fst (save_results_to_excel r2 t2 d1) in
  let d2 := snd (save_results_to_excel r2 t2 d1) in
  (f1 = f2 <-> t1 = t2) /\
  d2 f2 = Some (frame_of_records (output_data r2)) /\
  (t1 <> t2 -> d2 f1 = Some (frame_of_records (output_data r1))) /\
  (forall f, f <> f1 -> f <> f2 -> d2 f = d f).
Proof.
  intros V1 V2 f1 d1 f2 d2.
  assert (Hname : f1 = f2 <-> t1 = t2).
  { split.
    - apply (output_file_inj r1 r2 t1 t2 d d1 V1 V2).
    - intros ->. reflexivity. }
  split; [ exact Hname | ]. split; [ apply saved_file | ]. split.
  - intros Hne. subst d2. unfold save_results_to_excel at 1, to_excel at 1. cbn [snd].
    destruct (String.eqb_spec f1 (String.concat "" ["secret_santa_results_"; strftime t2; ".xlsx"]))
      as [E | _].
    + exfalso. apply Hne, Hname. exact E.
    + apply saved_file.
  - intros f H1 H2. subst d2 d1 f1 f2.
    unfold save_results_to_excel, to_excel in *. cbn [fst snd] in *.
    destruct (String.eqb_spec f (String.concat "" ["secret_santa_results_"; strftime t2; ".xlsx"]));
      [ contradiction | ].
    destruct (String.eqb_spec f (String.concat "" ["secret_santa_results_"; strftime t1; ".xlsx"]));
      [ contradiction | reflexivity ].
Qed.

Lemma saves_in_a_row_witness :
  valid_datetime (mkDatetime 2024 12 5 9 3 47) /\
  valid_datetime (mkDatetime 2024 12 5 9 3 48) /\
  snd (save_results_to_excel [(bob, carol)] (mkDatetime 2024 12 5 9 3 48)
         (snd (save_results_to_excel [(alice, dave)] (mkDatetime 2024 12 5 9 3 47)
                 (fun _ => None))))
      "secret_santa_results_20241205_090347.xlsx"
  = Some (frame_of_records (output_data [(alice, dave)])).
Proof.
  assert (V1 : valid_datetime (mkDatetime 2024 12 5 9 3 47))
    by (unfold valid_datetime; simpl; lia).
  assert (V2 : valid_datetime (mkDatetime 2024 12 5 9 3 48))
    by (unfold valid_datetime; simpl; lia).
  split; [ exact V1 | ]. split; [ exact V2 | ].
  refine (proj1 (proj2 (proj2 (saves_in_a_row [(alice, dave)] [(bob, carol)]
            (mkDatetime 2024 12 5 9 3 47) (mkDatetime 2024 12 5 9 3 48)
            (fun _ => None) V1 V2))) _).
  discriminate.
Defined.

(** * Sending the mails *)

Lemma recipients_send_emails (results : list (Participant * Participant))
  (server : string) (port : nat) (email password : string) :
  recipients (send_emails results server port email password) =
  map (fun gr => Email (fst gr)) results.
Proof.
  induction results as [ | [g r] rest IH ]; [ reflexivity | ].
  cbn [send_emails flat_map send_email app recipients map fst].
  f_equal. exact IH.
Qed.

Lemma In_sendmail (results : list (Participant * Participant))
  (server : string) (port : nat) (email password : string)
  (from_addr to_addr : string) (msg : Message) :
  In (sendmail from_addr to_addr msg) (send_emails results server port email password) ->
  exists giver receiver,
    In (giver, receiver) results /\
    from_addr = email /\ to_addr = Email giver /\
    msg = {| msg_From := email; msg_To := Email giver;
             msg_Subject := "Votre Secret Santa 🎅";
             msg_body := email_body giver receiver |}.
Proof.
  unfold send_emails. rewrite in_flat_map. intros [[g r] [Hin H]].
  exists g, r. split; [ exact Hin | ].
  simpl in H. destruct H as [H | [H | [H | [H | [H | []]]]]]; try discriminate.
  injection H as -> -> ->. auto.
Qed.



(** X10.  Whatever the results, the password only travels on a connection
    that has just been switched to TLS: every [login] comes right after a
    [starttls] on a connection opened for this one message, with the sender's
    credentials, and is followed by one [sendmail] and [quit]. *)
Theorem login_follows_starttls (results : list (Participant * Participant))
  (server : string) (port : nat) (email password : string)
  (before after : list smtp_call) (user pw : string) :
  send_emails results server port email password = before ++ login user pw :: after ->
  user = email /\ pw = password /\
  (exists earlier, before = earlier ++ [SMTP server port; starttls]) /\
  (exists to_addr msg later, after = sendmail email to_addr msg :: quit :: later).
Proof.
  revert before. induction results as [ | [g r] rest IH ]; intros before H.
  - destruct before; discriminate.
  - cbn [send_emails flat_map send_email app] in H.
    fold (send_emails rest server port email password) in H.
    destruct before as [ | b1 before ]; [ discriminate | ].
    destruct before as [ | b2 before ]; [ discriminate | ].
    destruct before as [ | b3 before ].
    { injection H as <- <- -> -> <-.
      split; [ reflexivity | ]. split; [ reflexivity | ]. split.
      - now exists [].
      - eexists. eexists. eexists. reflexivity. }
    destruct before as [ | b4 before ]; [ discriminate | ].
    destruct before as [ | b5 before ]; [ discriminate | ].
    injection H as <- <- <- <- <- H.
    destruct (IH before H) as (Eu & Ep & [earlier Ee] & Ha).
    split; [ exact Eu | ]. split; [ exact Ep | ]. split; [ | exact Ha ].
    subst before. eexists (_ :: _ :: _ :: _ :: _ :: earlier). reflexivity.
Qed.

Lemma login_follows_starttls_witness :
  send_emails [(alice, dave)] "smtp.example.com" 587 "santa@example.org" "secret" =
    [SMTP "smtp.example.com" 587; starttls] ++
    login "santa@example.org" "secret" ::
    [sendmail "santa@example.org" "alice@example.org"
       {| msg_From := "santa@example.org"; msg_To := "alice@example.org";
          msg_Subject := "Votre Secret Santa 🎅";
          msg_body := email_body alice dave |}; quit] /\
  exists earlier,
    [SMTP "smtp.example.com" 587; starttls] = earlier ++ [SMTP "smtp.example.com" 587; starttls].
Proof.
  split; [ reflexivity | ].
  exact (proj1 (proj2 (proj2 (login_follows_starttls [(alice, dave)]
           "smtp.example.com" 587 "santa@example.org" "secret"
           [SMTP "smtp.example.com" 587; starttls] _ _ _ eq_refl)))).
Defined.

(** * The script *)

Lemma send_emails_until_enough (fuel : nat) (results : list (Participant * Participant))
  (server : string) (port : nat) (email password : string) :
  4 * length results <= fuel ->
  send_emails_until fuel results server port email password =
  (send_emails results server port email password, true).
Proof.
  revert fuel. induction results as [ | [g r] rest IH ]; intros fuel H; [ reflexivity | ].
  cbn [send_emails_until]. cbn [length] in H.
  destruct (Nat.leb_spec 4 fuel) as [_ | Hlt]; [ | lia ].
  rewrite IH by lia. reflexivity.
Qed.

Lemma recipients_app (calls calls' : list smtp_call) :
  recipients (calls ++ calls') = recipients calls ++ recipients calls'.
Proof. apply flat_map_app. Qed.

(** A server that gives up early: the loop is left by the exception, and the
    messages that went out are those of the first [fuel / 4] results. *)
Lemma send_emails_until_short (fuel : nat) (results : list (Participant * Participant))
  (server : string) (port : nat) (email password : string) :
  fuel < 4 * length results ->
  snd (send_emails_until fuel results server port email password) = false /\
  recipients (fst (send_emails_until fuel results server port email password)) =
  map (fun gr => Email (fst gr)) (firstn (fuel / 4) results).
Proof.
  revert fuel. induction results as [ | [g r] rest IH ]; intros fuel H;
    [ simpl in H; lia | ].
  cbn [send_emails_until]. cbn [length] in H.
  destruct (Nat.leb_spec 4 fuel) as [Hge | Hlt].
  - destruct (IH (fuel - 4)) as [Hs Hr]; [ lia | ].
    destruct (send_emails_until (fuel - 4) rest server port email password)
      as [calls sent]. cbn [fst snd] in *. split; [ exact Hs | ].
    rewrite recipients_app, Hr.
    replace (fuel / 4) with (S ((fuel - 4) / 4)).
    + reflexivity.
    + replace fuel with ((fuel - 4) + 1 * 4) at 2 by lia.
      rewrite Nat.div_add by lia. lia.
  - split; [ reflexivity | ]. cbn [fst].
    rewrite (Nat.div_small fuel 4 Hlt). cbn [firstn map].
    destruct fuel as [ | [ | [ | [ | fuel ] ] ] ]; try reflexivity. lia.
Qed.

Lemma main_after_the_draw {Rng : Type} {RS : RandomSource Rng}
  (argv : list string) (w : World) (rng : Rng) (df : Workbook) :
  3 <= length argv ->
  workbooks w (nth 1 argv "") = Some df ->
  main argv w rng =
  match fst (draw_of_workbook w df rng) with
  | Raise e => (Uncaught e, w, snd (draw_of_workbook w df rng))
  | Return results =>
      let saved := with_disk (to_excel (frame_of_records (output_data results))
                                (output_file_of w) (disk w)) w in
      if String.eqb (nth 2 argv "") "-test" then
        if writable w (output_file_of w) then
          (Finished,
           print (String.concat "" ["Tirage enregistré dans "; output_file_of w;
                                    " en mode test."]) saved,
           snd (draw_of_workbook w df rng))
        else (WriteFailure, w, snd (draw_of_workbook w df rng))
      else if String.eqb (nth 2 argv "") "-send" then
        if writable w (output_file_of w) then
          let announced :=
            print (String.concat "" ["Tirage enregistré dans "; output_file_of w;
                                     ". Envoi des emails en cours..."]) saved in
          let calls := deliver (patience w) results "smtp.example.com" 587
                         "your_email@example.com" "your_password" in
          if snd calls then
            (Finished, print "Emails envoyés." (with_calls (fst calls) announced),
             snd (draw_of_workbook w df rng))
          else (MailFailure, with_calls (fst calls) announced,
                snd (draw_of_workbook w df rng))
        else (WriteFailure, w, snd (draw_of_workbook w df rng))
      else (SystemExit 1, print unknown_mode w, snd (draw_of_workbook w df rng))
  end.
Proof.
  intros Hlen Hwb. unfold main, draw_of_workbook.
  destruct (Nat.ltb_spec (length argv) 3) as [Hlt | _]; [ lia | ].
  rewrite Hwb.
  destruct (secret_santa_draw_as (missing_category (pandas_version w) df)
              (load_participants df) rng) as [[res | e] rng1];
    cbn [fst snd]; [ | reflexivity ].
  destruct (String.eqb (nth 2 argv "") "-test"); [ reflexivity | ].
  destruct (String.eqb (nth 2 argv "") "-send"); [ | reflexivity ].
  cbv zeta. unfold save_results_to_excel. fold (output_file_of w).
  destruct (writable w (output_file_of w)); [ | reflexivity ].
  cbn [patience print with_disk].
  destruct (deliver (patience w) res "smtp.example.com" 587
              "your_email@example.com" "your_password") as [calls [ | ]]; reflexivity.
Qed.

(** X11.  What [main] never does.  However it is called, it sends mail only
    in mode -send, and a run finishes only in mode -test or -send.  A run
    that ends otherwise has written no file and made no call on the mail
    server, unless it ends in an exception of smtplib: that happens only in
    mode -send, once the results have been saved, and then the file stays
    though the last line, of the mails sent, is never printed.  With fewer
    than two arguments [main] prints the usage line and exits with status 1,
    nothing read, nothing drawn. *)
Theorem main_is_careful {Rng : Type} {RS : RandomSource Rng}
  (argv : list string) (w : World) (rng : Rng) :
  let t := fst (fst (main argv w rng)) in
  let w' := snd (fst (main argv w rng)) in
  let rng' := snd (main argv w rng) in
  (nth 2 argv "" <> "-send" -> network w' = network w) /\
  (t = Finished -> nth 2 argv "" = "-test" \/ nth 2 argv "" = "-send") /\
  (t <> Finished -> t <> MailFailure -> disk w' = disk w /\ network w' = network w) /\
  (t = MailFailure ->
     nth 2 argv "" = "-send" /\
     (exists sheet, disk w' (output_file_of w) = Some sheet) /\
     (exists line, stdout w' = stdout w ++ [line] /\ line <> "Emails envoyés.")) /\
  (length argv < 3 ->
     t = SystemExit 1 /\ rng' = rng /\ stdout w' = stdout w ++ [usage] /\
     disk w' = disk w /\ network w' = network w).
Proof.
  destruct (Nat.ltb_spec (length argv) 3) as [Hlt | Hge].
  { unfold main. destruct (Nat.ltb_spec (length argv) 3) as [_ | H]; [ | lia ].
    cbn. intuition (try discriminate; try lia). }
  destruct (workbooks w (nth 1 argv "")) as [df | ] eqn:Hwb.
  2:{ unfold main. destruct (Nat.ltb_spec (length argv) 3) as [H | _]; [ lia | ].
      rewrite Hwb. cbn. intuition (try discriminate; try lia). }
  rewrite (main_after_the_draw argv w rng df Hge Hwb).
  destruct (fst (draw_of_workbook w df rng)) as [res | e].
  2:{ cbn. intuition (try discriminate; try lia). }
  cbv zeta.
  destruct (String.eqb_spec (nth 2 argv "") "-test") as [Et | Nt].
  { rewrite Et. destruct (writable w (output_file_of w));
      cbn; intuition (try discriminate; try lia). }
  destruct (String.eqb_spec (nth 2 argv "") "-send") as [Es | Ns].
  2:{ cbn. intuition (try discriminate; try lia). }
  destruct (writable w (output_file_of w)).
  2:{ cbn. intuition (try discriminate; try lia). }
  destruct (deliver (patience w) res "smtp.example.com" 587
              "your_email@example.com" "your_password") as [calls [ | ]].
  - cbn. intuition (try discriminate; try lia).
  - cbn [fst snd print with_calls with_disk disk stdout network].
    split; [ intros H; contradiction | ]. split; [ discriminate | ].
    split; [ intros _ H; contradiction | ]. split; [ | lia ].
    intros _. split; [ exact Es | ]. split.
    + eexists. unfold to_excel. rewrite String.eqb_refl. reflexivity.
    + eexists. split; [ reflexivity | ]. discriminate.
Qed.

Lemma main_is_careful_witness :
  fst (fst (main ["secret_santa.py"; "noel.xlsx"; "-send"] noel_offline ([] : Tape)))
    = MailFailure /\
  exists sheet,
    disk (snd (fst (main ["secret_santa.py"; "noel.xlsx"; "-send"] noel_offline
                      ([] : Tape))))
      (output_file_of noel_offline) = Some sheet.
Proof.
  assert (H : fst (fst (main ["secret_santa.py"; "noel.xlsx"; "-send"] noel_offline
                          ([] : Tape))) = MailFailure) by reflexivity.
  split; [ exact H | ].
  exact (proj1 (proj2 (proj1 (proj2 (proj2 (proj2
           (main_is_careful ["secret_santa.py"; "noel.xlsx"; "-send"] noel_offline
              ([] : Tape))))) H))).
Defined.

(** X12.  A run on a readable workbook whose draw returned, the output file
    writable.  In mode -test the results are saved under the name of the
    current time and no call is made on the mail server.  In mode -send, when
    the mail server lets every call through, the same results are saved first
    and then mailed, one message per row of the saved sheet and in its order,
    through smtp.example.com:587 as your_email@example.com, the account
    written in the script.  Either way the run finishes, no other file is
    changed, and the generator is left as the draw left it. *)
Theorem main_saves_then_sends {Rng : Type} {RS : RandomSource Rng}
  (argv : list string) (w : World) (rng : Rng) (df : Workbook)
  (res : list (Participant * Participant)) :
  3 <= length argv ->
  workbooks w (nth 1 argv "") = Some df ->
  fst (draw_of_workbook w df rng) = Return res ->
  writable w (output_file_of w) = true ->
  nth 2 argv "" = "-test" \/ (nth 2 argv "" = "-send" /\ patience w = None) ->
  let t := fst (fst (main argv w rng)) in
  let w' := snd (fst (main argv w rng)) in
  let rng' := snd (main argv w rng) in
  t = Finished /\
  rng' = snd (draw_of_workbook w df rng) /\
  disk w' (output_file_of w) = Some (frame_of_records (output_data res)) /\
  (forall f, f <> output_file_of w -> disk w' f = disk w f) /\
  (nth 2 argv "" = "-test" -> network w' = network w) /\
  (nth 2 argv "" = "-send" ->
     network w' = network w ++ mails_of res /\
     recipients (mails_of res) = map (fun gr => Email (fst gr)) res /\
     map donor (sheet_rows (frame_of_records (output_data res)))
     = map (fun gr => identity (fst gr)) res).
Proof.
  intros Hlen Hwb Hdraw Hw Hmode t w' rng'. subst t w' rng'.
  rewrite (main_after_the_draw argv w rng df Hlen Hwb), Hdraw. cbv zeta. rewrite Hw.
  assert (Hfile : forall d, to_excel (frame_of_records (output_data res))
                              (output_file_of w) d (output_file_of w)
                            = Some (frame_of_records (output_data res))).
  { intros d. unfold to_excel. now rewrite String.eqb_refl. }
  assert (Hother : forall d f, f <> output_file_of w ->
                     to_excel (frame_of_records (output_data res)) (output_file_of w) d f = d f).
  { intros d f Hf. unfold to_excel.
    destruct (String.eqb_spec f (output_file_of w)); [ contradiction | reflexivity ]. }
  destruct Hmode as [E | [E Hp]]; rewrite E; cbn [String.eqb Ascii.eqb Bool.eqb].
  - cbn [fst snd print with_disk with_calls disk network].
    split; [ reflexivity | ]. split; [ reflexivity | ]. split; [ apply Hfile | ].
    split; [ apply Hother | ]. split; [ reflexivity | discriminate ].
  - rewrite Hp. cbn [deliver fst snd print with_disk with_calls disk network].
    split; [ reflexivity | ]. split; [ reflexivity | ]. split; [ apply Hfile | ].
    split; [ apply Hother | ]. split; [ discriminate | ]. intros _.
    split; [ reflexivity | ]. split; [ apply recipients_send_emails | ].
    rewrite saved_rows, map_map. reflexivity.
Qed.

Lemma main_saves_then_sends_witness :
  3 <= length ["secret_santa.py"; "noel.xlsx"; "-send"] /\
  fst (fst (main ["secret_santa.py"; "noel.xlsx"; "-send"] noel ([] : Tape))) = Finished /\
  disk (snd (fst (main ["secret_santa.py"; "noel.xlsx"; "-send"] noel ([] : Tape))))
    "secret_santa_results_20241205_090347.xlsx"
  = Some {| sheet_columns := ["NOM Donneur"; "Prénom Donneur";
                              "NOM Destinataire"; "Prénom Destinataire"];
            sheet_rows := [ ["Durand"; "Dave"; "Martin"; "Alice"];
                            ["Martin"; "Alice"; "Durand"; "Dave"] ] |}.
Proof.
  assert (Hlen : 3 <= length ["secret_santa.py"; "noel.xlsx"; "-send"]) by (simpl; lia).
  split; [ exact Hlen | ].
  pose proof (main_saves_then_sends ["secret_santa.py"; "noel.xlsx"; "-send"] noel
                ([] : Tape) _ _ Hlen eq_refl eq_refl eq_refl
                (or_intror (conj eq_refl eq_refl))) as H.
  cbv zeta in H. destruct H as (Ht & _ & Hd & _). split; [ exact Ht | exact Hd ].
Defined.

(** X13.  The mode is looked at last.  With two arguments or more the
    workbook is read and the draw made whatever the mode: an unreadable path
    ends the run there, and a draw that raises ends it with that exception,
    nothing printed, even when the mode is not one the script knows.  Only
    when the draw has returned does an unknown mode get its message and exit
    status 1; the generator has been used all the same. *)
Theorem main_checks_the_mode_last {Rng : Type} {RS : RandomSource Rng}
  (argv : list string) (w : World) (rng : Rng) :
  3 <= length argv ->
  let t := fst (fst (main argv w rng)) in
  let w' := snd (fst (main argv w rng)) in
  let rng' := snd (main argv w rng) in
  (workbooks w (nth 1 argv "") = None ->
     t = ReadFailure /\ stdout w' = stdout w /\ rng' = rng) /\
  (forall df e,
     workbooks w (nth 1 argv "") = Some df ->
     fst (draw_of_workbook w df rng) = Raise e ->
     t = Uncaught e /\ stdout w' = stdout w) /\
  (forall df res,
     workbooks w (nth 1 argv "") = Some df ->
     fst (draw_of_workbook w df rng) = Return res ->
     nth 2 argv "" <> "-test" -> nth 2 argv "" <> "-send" ->
     t = SystemExit 1 /\ stdout w' = stdout w ++ [unknown_mode] /\
     rng' = snd (draw_of_workbook w df rng)).
Proof.
  intros Hlen t w' rng'. subst t w' rng'. split; [ | split ].
  - intros Hwb. unfold main.
    destruct (Nat.ltb_spec (length argv) 3) as [Hlt | _]; [ lia | ].
    rewrite Hwb. auto.
  - intros df e Hwb Hdraw.
    rewrite (main_after_the_draw argv w rng df Hlen Hwb), Hdraw. auto.
  - intros df res Hwb Hdraw Nt Ns.
    rewrite (main_after_the_draw argv w rng df Hlen Hwb), Hdraw. cbv zeta.
    apply String.eqb_neq in Nt, Ns. rewrite Nt, Ns. auto.
Qed.

Lemma main_checks_the_mode_last_witness :
  3 <= length ["secret_santa.py"; "adultes.xlsx"; "-tset"] /\
  fst (fst (main ["secret_santa.py"; "adultes.xlsx"; "-tset"] adults_only ([] : Tape)))
    = Uncaught (Exception infeasible) /\
  stdout (snd (fst (main ["secret_santa.py"; "adultes.xlsx"; "-tset"] adults_only
                      ([] : Tape)))) = [].
Proof.
  assert (Hlen : 3 <= length ["secret_santa.py"; "adultes.xlsx"; "-tset"])
    by (simpl; lia).
  split; [ exact Hlen | ].
  exact (proj1 (proj2 (main_checks_the_mode_last
           ["secret_santa.py"; "adultes.xlsx"; "-tset"] adults_only ([] : Tape) Hlen))
           _ _ eq_refl eq_refl).
Defined.

(** X15.  A mail server that fails part-way leaves the job half done.  In
    mode -send, the draw returned and the file written, a server that lets
    fewer calls through than the mails need ends the run with the exception
    of smtplib: the results are saved in full, the givers of the first rows
    have their message, as many as four calls each could be made for, the
    others have none, and the line of the mails sent is not printed. *)
Theorem main_mails_half_sent {Rng : Type} {RS : RandomSource Rng}
  (argv : list string) (w : World) (rng : Rng) (df : Workbook)
  (res : list (Participant * Participant)) (fuel : nat) :
  3 <= length argv ->
  workbooks w (nth 1 argv "") = Some df ->
  fst (draw_of_workbook w df rng) = Return res ->
  writable w (output_file_of w) = true ->
  nth 2 argv "" = "-send" ->
  patience w = Some fuel ->
  fuel < 4 * length res ->
  let t := fst (fst (main argv w rng)) in
  let w' := snd (fst (main argv w rng)) in
  t = MailFailure /\
  disk w' (output_file_of w) = Some (frame_of_records (output_data res)) /\
  stdout w' = stdout w ++ [String.concat "" ["Tirage enregistré dans "; output_file_of w;
                                             ". Envoi des emails en cours..."]] /\
  exists calls,
    network w' = network w ++ calls /\
    recipients calls = map (fun gr => Email (fst gr)) (firstn (fuel / 4) res) /\
    fuel / 4 < length res.
Proof.
  intros Hlen Hwb Hdraw Hw Hmode Hp Hfuel t w'. subst t w'.
  rewrite (main_after_the_draw argv w rng df Hlen Hwb), Hdraw. cbv zeta.
  rewrite Hw, Hmode, Hp. cbn [String.eqb Ascii.eqb Bool.eqb deliver].
  destruct (send_emails_until_short fuel res "smtp.example.com" 587
              "your_email@example.com" "your_password" Hfuel) as [Hs Hr].
  rewrite Hs. cbn [fst snd print with_disk with_calls disk stdout network].
  split; [ reflexivity | ]. split.
  { unfold to_excel. now rewrite String.eqb_refl. }
  split; [ reflexivity | ].
  eexists. split; [ reflexivity | ]. split; [ exact Hr | ].
  apply Nat.Div0.div_lt_upper_bound. lia.
Qed.

Lemma main_mails_half_sent_witness :
  3 <= length ["secret_santa.py"; "noel.xlsx"; "-send"] /\
  0 < 4 * 2 /\
  fst (fst (main ["secret_santa.py"; "noel.xlsx"; "-send"] noel_offline ([] : Tape)))
    = MailFailure /\
  stdout (snd (fst (main ["secret_santa.py"; "noel.xlsx"; "-send"] noel_offline
                      ([] : Tape))))
    = ["Tirage enregistré dans secret_santa_results_20241205_090347.xlsx. Envoi des emails en cours..."].
Proof.
  assert (Hlen : 3 <= length ["secret_santa.py"; "noel.xlsx"; "-send"]) by (simpl; lia).
  assert (Hfuel : 0 < 4 * 2) by lia.
  split; [ exact Hlen | ]. split; [ exact Hfuel | ].
  pose proof (main_mails_half_sent ["secret_santa.py"; "noel.xlsx"; "-send"] noel_offline
                ([] : Tape) _ _ 0 Hlen eq_refl eq_refl eq_refl eq_refl eq_refl Hfuel) as H.
  cbv zeta in H. destruct H as (Ht & _ & Hout & _). split; [ exact Ht | exact Hout ].
Defined.

(** * Two participants *)

Lemma candidates_of_two (p q : Participant) :
  filter_valid_pairs [p; q] = if valid_pair p q then [(0, 1); (1, 0)] else [].
Proof.
  unfold filter_valid_pairs, iterrows. cbn [length seq combine flat_map app].
  rewrite (valid_pair_same_category p p), (valid_pair_same_category q q) by reflexivity.
  rewrite (valid_pair_sym q p). destruct (valid_pair p q); reflexivity.
Qed.


